(** * test-review: the Express API service and the React client

    A shallow embedding of [server/index.js] and [client/src/App.jsx].

    - JavaScript strings are sequences of UTF-16 code units ([list N]).
    - JavaScript Numbers are IEEE binary64 values, kept as a sign and an
      exact rational magnitude; whatever the program computes from text is
      rounded to binary64 (round to nearest, ties to even) by [to_double].
      Integer-valued cells ([id], [count], [Date.now()]) are kept in [Z];
      they stay within the safe integers, where [+ 1] is exact.
    - The server's [users] array is a [list User], appended to by [push].
      Array lengths stay far below 2^32, so [users.length + 1] is exact.
    - The client's state cells hold JavaScript values; arrays and objects
      live in a store and the cells hold references to them, so that
      [users.push(...)] followed by [setUsers(users)] is modelled with the
      aliasing the source has.
    - [console.log] output is not part of the modelled state. *)

From Stdlib Require Import ZArith QArith List Sorted Lia Bool String Ascii.
From stdpp Require Import gmap.
Import ListNotations.

Local Open Scope Z_scope.

(** ** JavaScript strings *)

Definition jsstring := list N.

Definition str (s : string) : jsstring := map N_of_ascii (list_ascii_of_string s).

Definition jsstring_eqb (a b : jsstring) : bool :=
  if decide (a = b) then true else false.

(** ** JavaScript Numbers *)

Module Num.

(** [Fin neg mag] is the finite value of magnitude [mag >= 0]; [Fin true 0]
    is the negative zero. *)
Inductive number :=
| NaN
| Inf (neg : bool)
| Fin (neg : bool) (mag : Q).

Definition of_Z (z : Z) : number := Fin (z <? 0) (inject_Z (Z.abs z)).

Definition negate (x : number) : number :=
  match x with
  | NaN => NaN
  | Inf s => Inf (negb s)
  | Fin s q => Fin (negb s) q
  end.

(** Number::equal: NaN equals nothing, the two zeros are equal. *)
Definition equal (x y : number) : bool :=
  match x, y with
  | Fin s1 q1, Fin s2 q2 => Qeq_bool q1 q2 && (Bool.eqb s1 s2 || Qeq_bool q1 0)
  | Inf s1, Inf s2 => Bool.eqb s1 s2
  | _, _ => false
  end.

(** Number::sameValue, the comparison of [Object.is]: NaN is itself, the
    two zeros differ. *)
Definition same_value (x y : number) : bool :=
  match x, y with
  | NaN, NaN => true
  | Fin s1 q1, Fin s2 q2 => Qeq_bool q1 q2 && Bool.eqb s1 s2
  | Inf s1, Inf s2 => Bool.eqb s1 s2
  | _, _ => false
  end.

(** *** Rounding a non-negative rational [n/d] to binary64 *)

(** The integer nearest to [n/d], ties to the even one ([0 <= n], [0 < d]). *)
Definition round_half_even (n d : Z) : Z :=
  let q := n / d in
  let r := n mod d in
  match 2 * r ?= d with
  | Lt => q
  | Gt => q + 1
  | Eq => if Z.even q then q else q + 1
  end.

(** [2^e <= n/d] *)
Definition pow2_le (e n d : Z) : bool :=
  if 0 <=? e then d * 2 ^ e <=? n else d <=? n * 2 ^ (- e).

(** [floor (log2 (n/d))] for [0 < n], [0 < d]. *)
Definition ilog2 (n d : Z) : Z :=
  let e0 := Z.log2 n - Z.log2 d in
  if pow2_le e0 n d then e0 else e0 - 1.

(** The binary64 value nearest to [n/d]: 53 significant bits, the unit in
    the last place never below [2^-1074], overflow to infinity at [2^1024]. *)
Definition to_double (n d : Z) : number :=
  if n =? 0 then Fin false 0
  else
    let e := ilog2 n d in
    let p := Z.max (e - 52) (-1074) in
    if 0 <=? p then
      let m := round_half_even n (d * 2 ^ p) in
      if 2 ^ 1024 <=? m * 2 ^ p then Inf false
      else Fin false (inject_Z (m * 2 ^ p))
    else
      let m := round_half_even (n * 2 ^ (- p)) d in
      Fin false (Qred (m # Z.to_pos (2 ^ (- p)))).

(** [to_double] of the mathematical value [m * 10^x]. *)
Definition of_decimal (m x : Z) : number :=
  if 0 <=? x then to_double (m * 10 ^ x) 1 else to_double m (10 ^ (- x)).

(** *** StringToNumber (ECMA-262, 7.1.4.1.1) *)

(** StrWhiteSpaceChar: WhiteSpace and LineTerminator code points. *)
Definition is_whitespace (c : N) : bool :=
  existsb (N.eqb c)
    [0x09; 0x0A; 0x0B; 0x0C; 0x0D; 0x20; 0xA0; 0x1680; 0x2000; 0x2001; 0x2002;
     0x2003; 0x2004; 0x2005; 0x2006; 0x2007; 0x2008; 0x2009; 0x200A; 0x2028;
     0x2029; 0x202F; 0x205F; 0x3000; 0xFEFF]%N.

Fixpoint trim_start (s : jsstring) : jsstring :=
  match s with
  | c :: r => if is_whitespace c then trim_start r else s
  | [] => []
  end.

Definition trim (s : jsstring) : jsstring :=
  rev (trim_start (rev (trim_start s))).

Definition is_digit (c : N) : bool := ((48 <=? c) && (c <=? 57))%N.

(** The value of a digit in a radix up to 16, [None] when [c] is no digit. *)
Definition digit_in (radix : Z) (c : N) : option Z :=
  let v :=
    if is_digit c then Some (Z.of_N (c - 48))
    else if ((97 <=? c) && (c <=? 102))%N then Some (Z.of_N (c - 87))
    else if ((65 <=? c) && (c <=? 70))%N then Some (Z.of_N (c - 55))
    else None in
  match v with
  | Some d => if d <? radix then Some d else None
  | None => None
  end.

(** The integer written by the digits [ds] in [radix], most significant
    first; [None] when some code unit is not a digit of the radix. *)
Fixpoint digits_value (radix : Z) (acc : Z) (ds : jsstring) : option Z :=
  match ds with
  | [] => Some acc
  | c :: r =>
      match digit_in radix c with
      | Some d => digits_value radix (radix * acc + d) r
      | None => None
      end
  end.

Fixpoint span_digits (s : jsstring) : jsstring * jsstring :=
  match s with
  | c :: r =>
      if is_digit c then let (ds, rest) := span_digits r in (c :: ds, rest)
      else ([], s)
  | [] => ([], [])
  end.

Definition is_nil {A} (l : list A) : bool :=
  match l with [] => true | _ => false end.

(** NonDecimalIntegerLiteral: [0b], [0o], [0x] (either case) and at least
    one digit. [None]: the text has no such prefix. *)
Definition parse_non_decimal (s : jsstring) : option number :=
  match s with
  | 48%N :: c :: ds =>
      let radix :=
        if (c =? 98)%N || (c =? 66)%N then Some 2
        else if (c =? 111)%N || (c =? 79)%N then Some 8
        else if (c =? 120)%N || (c =? 88)%N then Some 16
        else None in
      match radix with
      | Some b =>
          if is_nil ds then Some NaN
          else match digits_value b 0 ds with
               | Some v => Some (to_double v 1)
               | None => Some NaN
               end
      | None => None
      end
  | _ => None
  end.

(** ExponentPart_opt at the end of the literal: nothing, or [e]/[E], an
    optional sign and at least one digit. *)
Definition parse_exponent (s : jsstring) : option Z :=
  match s with
  | [] => Some 0
  | c :: r =>
      if (c =? 101)%N || (c =? 69)%N then
        let '(neg, ds) :=
          match r with
          | 43%N :: ds => (false, ds)
          | 45%N :: ds => (true, ds)
          | _ => (false, r)
          end in
        if is_nil ds then None
        else match digits_value 10 0 ds with
             | Some v => Some (if neg then - v else v)
             | None => None
             end
      else None
  end.

(** StrUnsignedDecimalLiteral: [Infinity], or digits with an optional
    fraction and exponent, with a digit on at least one side of the dot. *)
Definition parse_unsigned_decimal (s : jsstring) : number :=
  if jsstring_eqb s (str "Infinity") then Inf false
  else
    let (ip, r1) := span_digits s in
    let (fp, r2) :=
      match r1 with
      | 46%N :: r => span_digits r
      | _ => ([], r1)
      end in
    if is_nil ip && is_nil fp then NaN
    else
      match digits_value 10 0 (ip ++ fp), parse_exponent r2 with
      | Some m, Some x => of_decimal m (x - Z.of_nat (length fp))
      | _, _ => NaN
      end.

Definition StringToNumber (s : jsstring) : number :=
  let t := trim s in
  match t with
  | [] => Fin false 0
  | c :: u =>
      match parse_non_decimal t with
      | Some r => r
      | None =>
          if (c =? 43)%N then parse_unsigned_decimal u
          else if (c =? 45)%N then negate (parse_unsigned_decimal u)
          else parse_unsigned_decimal t
      end
  end.

(** *** Number::toString for integers below 10^21: plain decimal digits *)

Fixpoint digits_of (fuel : nat) (n : Z) (acc : jsstring) : jsstring :=
  let acc' := (48 + Z.to_N (n mod 10))%N :: acc in
  match fuel with
  | O => acc'
  | S f => if n <? 10 then acc' else digits_of f (n / 10) acc'
  end.

Definition toString (z : Z) : jsstring :=
  let n := Z.abs z in
  let ds := digits_of (Z.to_nat (Z.log2 n)) n [] in
  if z <? 0 then 45%N :: ds else ds.

(** Text made of white space only. *)
Definition all_whitespace (s : jsstring) : Prop :=
  Forall (fun c => is_whitespace c = true) s.

End Num.

(** ** JavaScript values *)

(** The values JSON text can denote, and [undefined] for an absent property.
    The order of an object's properties carries no meaning here. *)
#[local] Set Warnings "-register-all".
Inductive value :=
| VUndefined
| VNull
| VBool (b : bool)
| VNum (n : Num.number)
| VStr (s : jsstring)
| VArr (elems : list value)
| VObj (props : list (jsstring * value)).

(** [x == y] for a Number [x] and a String [y] (IsLooselyEqual, step 5):
    the string is converted with StringToNumber and the Numbers compared. *)
Definition loose_eq_number_string (x : Num.number) (y : jsstring) : bool :=
  Num.equal x (Num.StringToNumber y).

(** What a variable or a state cell holds: a primitive by value, an
    array or object by reference into a store. *)
Definition loc := nat.

Inductive jsval :=
| Prim (v : value)
| Ref (l : loc).

(** Comparison of two primitives of the same type with [eqn] on Numbers;
    primitives of different types are never equal. *)
Definition prim_eq (eqn : Num.number -> Num.number -> bool) (a b : value) : bool :=
  match a, b with
  | VUndefined, VUndefined => true
  | VNull, VNull => true
  | VBool x, VBool y => Bool.eqb x y
  | VNum x, VNum y => eqn x y
  | VStr x, VStr y => jsstring_eqb x y
  | _, _ => false
  end.

(** [a === b] (IsStrictlyEqual): no conversion; references are equal when
    they are the same reference. *)
Definition strict_eq (a b : jsval) : bool :=
  match a, b with
  | Ref l1, Ref l2 => bool_decide (l1 = l2)
  | Prim v1, Prim v2 => prim_eq Num.equal v1 v2
  | _, _ => false
  end.

(** [Object.is(a, b)] (SameValue). *)
Definition Object_is (a b : jsval) : bool :=
  match a, b with
  | Ref l1, Ref l2 => bool_decide (l1 = l2)
  | Prim v1, Prim v2 => prim_eq Num.same_value v1 v2
  | _, _ => false
  end.

(** Property read [o.k] on an object built from JSON. *)
Fixpoint get_prop (k : jsstring) (props : list (jsstring * value)) : value :=
  match props with
  | [] => VUndefined
  | (k', v) :: r => if jsstring_eqb k k' then v else get_prop k r
  end.

Definition get (o : value) (k : jsstring) : value :=
  match o with
  | VObj props => get_prop k props
  | _ => VUndefined
  end.

(** ** The API service: server/index.js *)

Module Server.

Record User := mkUser {
  id : Z;
  name : value;
  email : value;
  password : value
}.

(** The object a record is, as handed to [res.json]. *)
Definition user_value (u : User) : value :=
  VObj [(str "id", VNum (Num.of_Z (id u)));
        (str "name", name u);
        (str "email", email u);
        (str "password", password u)].

Definition initial_users : list User :=
  [ mkUser 1 (VStr (str "John")) (VStr (str "john@test.com")) (VStr (str "password123"));
    mkUser 2 (VStr (str "Jane")) (VStr (str "jane@test.com")) (VStr (str "admin")) ].

(** What a handler sends: [res.json(v)] or [res.send(buffer)], under the
    status set before (200 unless [res.status] was called). *)
Inductive payload :=
| Json (v : value)
| Raw (data : list N).

Record response := mkResponse {
  status : Z;
  body : payload
}.

Definition res_json (v : value) : response := mkResponse 200 (Json v).

(** A thrown [Error]: [message], [stack] and the [path] property that
    file-system errors carry. *)
Record js_error := mkError {
  message : jsstring;
  stack : jsstring;
  path : value
}.

(** How a request ends: a response was sent, or the handler's promise
    was rejected with nothing attached to it and no response was sent. *)
Inductive outcome :=
| Responded (r : response)
| Unhandled (e : js_error).

(** The three fields the POST handler destructures from [req.body];
    [VUndefined] for a field the body does not have. *)
Record user_body := mkBody {
  body_name : value;
  body_email : value;
  body_password : value
}.

Inductive request :=
| GetHello
| GetUser (id : jsstring)
| PostUser (b : user_body)
| GetFile (filename : jsstring)
| GetAsyncOperation
| GetAllUsers.

(** What [fs.readFileSync] finds at a path. *)
Inductive file_status :=
| Regular (data : list N)
| Missing
| Failing (e : js_error).

(** The process environment a request runs in: the file system, the call
    stack text the engine puts after the first line of [error.stack], the
    next value of [Math.random()] and [process.env.NODE_ENV]. *)
Record env := mkEnv {
  fs_lookup : jsstring -> file_status;
  stack_frames : jsstring;
  random : Q;
  NODE_ENV : option jsstring
}.

(** The ENOENT error of [fs.readFileSync(p)]. *)
Definition enoent (frames p : jsstring) : js_error :=
  let msg := str "ENOENT: no such file or directory, open '" ++ p ++ str "'" in
  mkError msg (str "Error: " ++ msg ++ frames) (VStr p).

Definition readFileSync (e : env) (p : jsstring) : list N + js_error :=
  match fs_lookup e p with
  | Regular data => inl data
  | Missing => inr (enoent (stack_frames e) p)
  | Failing err => inr err
  end.

(** [users.find((u) => u.id == id)] *)
Definition find_user (users : list User) (id_param : jsstring) : option User :=
  find (fun u => loose_eq_number_string (Num.of_Z (id u)) id_param) users.

(** The lookup as it would be with [===] in place of [==]. *)
Definition find_user_strict (users : list User) (id_param : jsstring) : option User :=
  find (fun u => strict_eq (Prim (VNum (Num.of_Z (id u)))) (Prim (VStr id_param))) users.

Definition not_found : value := VObj [(str "error", VStr (str "User not found"))].

(** GET /api/users/:id. A found record is an object, hence truthy;
    [undefined] is falsy. *)
Definition get_user (users : list User) (id_param : jsstring) : response :=
  match find_user users id_param with
  | Some user => res_json (user_value user)
  | None => res_json not_found
  end.

(** POST /api/users *)
Definition post_user (users : list User) (b : user_body) : list User * response :=
  let newUser :=
    mkUser (Z.of_nat (length users) + 1) (body_name b) (body_email b) (body_password b) in
  (users ++ [newUser], res_json (user_value newUser)).

(** GET /api/file/:filename *)
Definition get_file (e : env) (filename : jsstring) : response :=
  match readFileSync e (str "./uploads/" ++ filename) with
  | inl data => mkResponse 200 (Raw data)
  | inr error =>
      mkResponse 500
        (Json (VObj [(str "error", VStr (message error));
                     (str "stack", VStr (stack error));
                     (str "path", path error)]))
  end.

(** [someAsyncOperation]: the settled state of the promise it returns. *)
Definition someAsyncOperation (e : env) : value + js_error :=
  if Qlt_le_dec (1 # 2) (random e) then
    let msg := str "Random service failure" in
    inr (mkError msg (str "Error: " ++ msg ++ stack_frames e) VUndefined)
  else inl (VObj [(str "data", VStr (str "Success"))]).

(** GET /api/async-operation: [await] rethrows a rejection inside the
    async handler, whose own promise nobody observes. *)
Definition get_async_operation (e : env) : outcome :=
  match someAsyncOperation e with
  | inl result => Responded (res_json result)
  | inr err => Unhandled err
  end.

(** GET /api/all-users *)
Definition get_all_users (users : list User) : response :=
  res_json (VArr (map user_value users)).

(** One request against the shared array. *)
Definition handle (e : env) (users : list User) (r : request) : list User * outcome :=
  match r with
  | GetHello =>
      (users, Responded (res_json (VObj [(str "message", VStr (str "Hello from API!"))])))
  | GetUser id_param => (users, Responded (get_user users id_param))
  | PostUser b => let (users', resp) := post_user users b in (users', Responded resp)
  | GetFile filename => (users, Responded (get_file e filename))
  | GetAsyncOperation => (users, get_async_operation e)
  | GetAllUsers => (users, Responded (get_all_users users))
  end.

(** The states of the array: the two records it starts with, and
    whatever POSTs make of it (nothing else writes to it). *)
Inductive reachable : list User -> Prop :=
| reachable_initial : reachable initial_users
| reachable_post users b : reachable users -> reachable (fst (post_user users b)).

(** Requests handled one after the other, in one environment. *)
Fixpoint handle_all (e : env) (users : list User) (rs : list request)
    : list User * list outcome :=
  match rs with
  | [] => (users, [])
  | r :: rest =>
      let (users', o) := handle e users r in
      let (users'', os) := handle_all e users' rest in
      (users'', o :: os)
  end.

(** The id of the record at index [i] of an array that only POSTs have
    written to. *)
Definition nth_id (i : nat) : Z := Z.of_nat i + 1.

(** A process started with [NODE_ENV=production] and an empty [uploads]
    directory. *)
Definition production : env :=
  mkEnv (fun _ => Missing) (str " at Object.readFileSync (node:fs)") 0
        (Some (str "production")).

(** The requests that write to the array. *)
Definition is_post (r : request) : bool :=
  match r with
  | PostUser _ => true
  | _ => false
  end.

End Server.

(** ** The wire between the two: JSON text and the route table *)

Module Wire.

(** [JSON.parse(JSON.stringify(v))]: a property holding [undefined] is
    left out, [undefined] in an array and the Numbers JSON cannot write
    become [null], the negative zero becomes zero. A bare [undefined]
    has no JSON text ([None]). *)
Fixpoint json_clean (v : value) : value :=
  match v with
  | VNum Num.NaN | VNum (Num.Inf _) => VNull
  | VNum (Num.Fin true q) => if Qeq_bool q 0 then VNum (Num.Fin false q) else v
  | VArr elems =>
      VArr (map (fun x => match json_clean x with VUndefined => VNull | y => y end) elems)
  | VObj props =>
      VObj (List.filter (fun kv => match snd kv with VUndefined => false | _ => true end)
              (map (fun kv => (fst kv, json_clean (snd kv))) props))
  | _ => v
  end.

Definition json_roundtrip (v : value) : option value :=
  match v with
  | VUndefined => None
  | _ => Some (json_clean v)
  end.

Fixpoint strip_prefix (p s : jsstring) : option jsstring :=
  match p, s with
  | [] , _ => Some s
  | a :: p', b :: s' => if (a =? b)%N then strip_prefix p' s' else None
  | _ :: _, [] => None
  end.

(** A path segment a [:param] stands for as it is: not empty, no [/],
    and none of [%], [?], [#], whose handling by the framework (decoding,
    query strings) is outside this model. *)
Definition plain_segment (seg : jsstring) : bool :=
  negb (Num.is_nil seg) && forallb (fun c => negb (existsb (N.eqb c) [47; 37; 63; 35]%N)) seg.

(** The GET routes of [server/index.js], tried in the order they are
    registered. *)
Definition route_get (path : jsstring) : option Server.request :=
  if jsstring_eqb path (str "/api/hello") then Some Server.GetHello
  else
    match strip_prefix (str "/api/users/") path with
    | Some seg => if plain_segment seg then Some (Server.GetUser seg) else None
    | None =>
        match strip_prefix (str "/api/file/") path with
        | Some seg => if plain_segment seg then Some (Server.GetFile seg) else None
        | None =>
            if jsstring_eqb path (str "/api/async-operation") then Some Server.GetAsyncOperation
            else if jsstring_eqb path (str "/api/all-users") then Some Server.GetAllUsers
            else None
        end
    end.

End Wire.

(** ** The client application: client/src/App.jsx *)

Module Client.

(** What the last commit put on the page: the counter's label, whether
    "Loading..." shows, and one entry per user, the content of its
    [<span>], each entry with its own "Add User" button. [Crashed]: an
    exception escaped the render and the tree was unmounted. The text of
    "Computed:", a floating-point sum of random draws, is left out. *)
Inductive screen :=
| Crashed
| Rendered (count_label : Z) (show_loading : bool) (entries : list value).

(** Where the one call of [fetchUsers] is suspended. *)
Inductive fetch_phase :=
| Idle
| AwaitingFetch
| AwaitingJson.

Record state := mkState {
  count : Z;
  users : jsval;
  loading : bool;
  store : gmap loc value;
  phase : fetch_phase;
  requests : list jsstring;
  view : screen
}.

(** [user.name] inside [users.map]; [None]: reading a property of
    [null] or [undefined] throws. *)
Definition entry_name (user : value) : option value :=
  match user with
  | VUndefined | VNull => None
  | VObj props => Some (get_prop (str "name") props)
  | _ => Some VUndefined
  end.

(** What React accepts as a child of [<span>]: no plain object. *)
Fixpoint valid_child (v : value) : bool :=
  match v with
  | VObj _ => false
  | VArr elems => forallb valid_child elems
  | _ => true
  end.

Fixpoint entries_of (elems : list value) : option (list value) :=
  match elems with
  | [] => Some []
  | user :: rest =>
      match entry_name user, entries_of rest with
      | Some n, Some ns => if valid_child n then Some (n :: ns) else None
      | _, _ => None
      end
  end.

(** The body of [App] from the state cells: [users.map] exists on arrays only. *)
Definition render (count : Z) (users : jsval) (loading : bool)
    (store : gmap loc value) : screen :=
  match users with
  | Ref l =>
      match store !! l with
      | Some (VArr elems) =>
          match entries_of elems with
          | Some entries => Rendered count loading entries
          | None => Crashed
          end
      | _ => Crashed
      end
  | Prim _ => Crashed
  end.

(** State updates made in one task are applied together; [dirty] records
    whether any of them changed a cell ([Object.is] says no), which is
    what makes React render again. *)
Record batch := mkBatch {
  cells : state;
  dirty : bool
}.

Definition begin (st : state) : batch := mkBatch st false.

Definition setCount (f : Z -> Z) (b : batch) : batch :=
  let st := cells b in
  let v := f (count st) in
  mkBatch (mkState v (users st) (loading st) (store st) (phase st) (requests st) (view st))
          (dirty b || negb (v =? count st)).

Definition setUsers (v : jsval) (b : batch) : batch :=
  let st := cells b in
  mkBatch (mkState (count st) v (loading st) (store st) (phase st) (requests st) (view st))
          (dirty b || negb (Object_is v (users st))).

Definition setLoading (v : bool) (b : batch) : batch :=
  let st := cells b in
  mkBatch (mkState (count st) (users st) v (store st) (phase st) (requests st) (view st))
          (dirty b || negb (Bool.eqb v (loading st))).

(** End of the task: render again if a cell changed and the tree is
    still mounted. *)
Definition flush (b : batch) : state :=
  let st := cells b in
  if dirty b then
    match view st with
    | Crashed => st
    | Rendered _ _ _ =>
        mkState (count st) (users st) (loading st) (store st) (phase st) (requests st)
                (render (count st) (users st) (loading st) (store st))
    end
  else st.

Definition with_store (sigma : gmap loc value) (st : state) : state :=
  mkState (count st) (users st) (loading st) sigma (phase st) (requests st) (view st).

Definition with_phase (ph : fetch_phase) (st : state) : state :=
  mkState (count st) (users st) (loading st) (store st) ph (requests st) (view st).

Definition with_request (url : jsstring) (st : state) : state :=
  mkState (count st) (users st) (loading st) (store st) (phase st) (requests st ++ [url]) (view st).

Definition on_cells (f : state -> state) (b : batch) : batch :=
  mkBatch (f (cells b)) (dirty b).

(** The first render: [useState(0)], [useState([])], [useState(false)]. *)
Definition initial : state :=
  let sigma : gmap loc value := {[ 0%nat := VArr [] ]} in
  mkState 0 (Ref 0%nat) false sigma Idle [] (render 0 (Ref 0%nat) false sigma).

(** [fetchUsers(userId)] up to its first [await]: [setLoading(true)] and
    the call of [fetch]. *)
Definition fetchUsers_start (userId : Z) (st : state) : state :=
  let url := str "/api/users/" ++ Num.toString userId in
  flush (on_cells (with_phase AwaitingFetch)
           (on_cells (with_request url) (setLoading true (begin st)))).

(** [fetch] settled. Rejected: the empty [catch], then [setLoading(false)].
    Resolved: on to [await response.json()]. *)
Definition fetchUsers_fetched (resolved : bool) (st : state) : state :=
  if resolved then with_phase AwaitingJson st
  else flush (setLoading false (begin (with_phase Idle st))).

(** A parsed body enters the program as a fresh array or object, or as a
    primitive. *)
Definition allocate (data : value) (sigma : gmap loc value) : jsval * gmap loc value :=
  match data with
  | VArr _ | VObj _ =>
      let l := fresh (dom sigma) in (Ref l, <[ l := data ]> sigma)
  | _ => (Prim data, sigma)
  end.

(** [response.json()] settled. Resolved with [data]: [setUsers(data)],
    then [setLoading(false)]. Rejected: the empty [catch], then
    [setLoading(false)]. *)
Definition fetchUsers_parsed (parsed : option value) (st : state) : state :=
  match parsed with
  | Some data =>
      let (v, sigma) := allocate data (store st) in
      flush (setLoading false (setUsers v (begin (with_phase Idle (with_store sigma st)))))
  | None => flush (setLoading false (begin (with_phase Idle st)))
  end.

(** [Array.prototype.push] on what [users] holds, in place; [None] where
    [users.push] is not a function. *)
Definition push (users : jsval) (x : value) (sigma : gmap loc value)
    : option (gmap loc value) :=
  match users with
  | Ref l =>
      match sigma !! l with
      | Some (VArr elems) => Some (<[ l := VArr (elems ++ [x]) ]> sigma)
      | _ => None
      end
  | Prim _ => None
  end.

(** [addUser(newUser)]: [users.push(newUser); setUsers(users)], where
    [users] is the value of the state cell at the last render. *)
Definition addUser (newUser : value) (st : state) : option state :=
  match push (users st) newUser (store st) with
  | Some sigma => Some (flush (setUsers (users st) (begin (with_store sigma st))))
  | None => None
  end.

(** The argument of [addUser] in the button's handler:
    [{ id: Date.now(), name: "New User" }]. *)
Definition new_user (now : Z) : value :=
  VObj [(str "id", VNum (Num.of_Z now)); (str "name", VStr (str "New User"))].

Inductive event :=
| Mount
| FetchSettled (resolved : bool)
| JsonSettled (parsed : option value)
| ClickCount
| ClickAddUser (index : nat) (now : Z).

(** One event on the page; [None] where the event cannot happen (no such
    button on the page, nothing awaited) or its handler throws. *)
Definition step (st : state) (ev : event) : option state :=
  match ev with
  | Mount =>
      match phase st, requests st with
      | Idle, [] => Some (fetchUsers_start (count st) st)
      | _, _ => None
      end
  | FetchSettled resolved =>
      match phase st with
      | AwaitingFetch => Some (fetchUsers_fetched resolved st)
      | _ => None
      end
  | JsonSettled parsed =>
      match phase st with
      | AwaitingJson => Some (fetchUsers_parsed parsed st)
      | _ => None
      end
  | ClickCount =>
      match view st with
      | Rendered _ _ _ => Some (flush (setCount (fun count => count + 1) (begin st)))
      | Crashed => None
      end
  | ClickAddUser index now =>
      match view st with
      | Rendered _ _ entries =>
          if (index <? length entries)%nat then addUser (new_user now) st
          else None
      | Crashed => None
      end
  end.

Fixpoint run (st : state) (evs : list event) : option state :=
  match evs with
  | [] => Some st
  | ev :: rest =>
      match step st ev with
      | Some st' => run st' rest
      | None => None
      end
  end.

(** The entries on the page, [None] once the tree is unmounted. *)
Definition rendered_users (st : state) : option (list value) :=
  match view st with
  | Rendered _ _ entries => Some entries
  | Crashed => None
  end.

(** The flag is up exactly while [fetchUsers] is suspended. *)
Definition loading_while_fetching (st : state) : Prop :=
  loading st = true <-> phase st <> Idle.

(** A record as a response body may carry it. *)
Definition john : value :=
  VObj [(str "id", VNum (Num.of_Z 1)); (str "name", VStr (str "John"))].

(** The counter's label and the loading indicator on the page are those
    of the state cells. *)
Definition labels_current (st : state) : Prop :=
  match view st with
  | Crashed => True
  | Rendered c ld _ => c = count st /\ ld = loading st
  end.

(** What a page shows once [data] has arrived as the parsed body. *)
Definition page_of_data (count : Z) (data : value) : screen :=
  match data with
  | VArr elems =>
      match entries_of elems with
      | Some entries => Rendered count false entries
      | None => Crashed
      end
  | _ => Crashed
  end.

(** The page after a load whose body was the array [[john]]. *)
Definition one_user_page : state :=
  mkState 0 (Ref 1%nat) false
    (<[ 1%nat := VArr [john] ]> {[ 0%nat := VArr [] ]}) Idle [str "/api/users/0"]
    (Rendered 0 false [VStr (str "John")]).

Definition is_counter_click (ev : event) : bool :=
  match ev with
  | ClickCount => true
  | _ => false
  end.

(** Clicks on "Add User" buttons, each with the row of its button and
    the clock reading of the click. *)
Definition add_user_clicks (clicks : list (nat * Z)) : list event :=
  map (fun c => ClickAddUser (fst c) (snd c)) clicks.

End Client.


(** ** The two together: one exchange between the page and the service *)

Module System.

(** How a settled request reaches [fetchUsers]: [fetch] resolves whatever
    the status, and [response.json()] parses the body [res.json] wrote. *)
Definition deliver (r : Server.response) : option (list Client.event) :=
  match Server.body r with
  | Server.Json v => Some [Client.FetchSettled true; Client.JsonSettled (Wire.json_roundtrip v)]
  | Server.Raw _ => None
  end.

(** The page is mounted against a service holding [users]: the request
    the mount effect issues is routed, handled and its response delivered. *)
Definition mount (e : Server.env) (users : list Server.User) : option Client.state :=
  match Client.step Client.initial Client.Mount with
  | Some st =>
      match Client.requests st with
      | [url] =>
          match Wire.route_get url with
          | Some req =>
              match Server.handle e users req with
              | (_, Server.Responded r) =>
                  match deliver r with
                  | Some evs => Client.run st evs
                  | None => None
                  end
              | (_, Server.Unhandled _) => None
              end
          | None => None
          end
      | _ => None
      end
  | None => None
  end.

End System.

(** * Properties *)

(** ** Decimal text of an integer, read back *)

Module NumFacts.
Import Num.

Lemma digit_not_whitespace c : is_digit c = true -> is_whitespace c = false.
Proof.
  unfold is_digit, is_whitespace. intros H.
  apply andb_true_iff in H as [H1 H2].
  apply N.leb_le in H1. apply N.leb_le in H2. cbn [existsb].
  repeat match goal with
         | |- context [N.eqb c ?k] => destruct (N.eqb_spec c k); [lia |]
         end.
  reflexivity.
Qed.

Lemma trim_start_head c s : is_whitespace c = false -> trim_start (c :: s) = c :: s.
Proof. intros H. simpl. now rewrite H. Qed.

(** Text that neither starts nor ends with white space is its own trim. *)
Lemma trim_id a s z :
  is_whitespace a = false -> is_whitespace z = false ->
  trim (a :: s ++ [z]) = a :: s ++ [z].
Proof.
  intros Ha Hz. unfold trim. rewrite (trim_start_head _ _ Ha).
  replace (rev (a :: s ++ [z])) with (z :: rev (a :: s)).
  - rewrite (trim_start_head _ _ Hz).
    change (z :: rev (a :: s)) with ([z] ++ rev (a :: s)).
    rewrite rev_app_distr, rev_involutive. reflexivity.
  - change (a :: s ++ [z]) with ((a :: s) ++ [z]).
    rewrite rev_app_distr. reflexivity.
Qed.

Lemma trim_single a : is_whitespace a = false -> trim [a] = [a].
Proof. intros Ha. unfold trim. simpl. rewrite Ha. simpl. now rewrite Ha. Qed.

Lemma trim_no_whitespace s :
  Forall (fun c => is_whitespace c = false) s -> trim s = s.
Proof.
  intros H. destruct s as [| a s]; [reflexivity |].
  destruct (exists_last (l := a :: s)) as [s' [z E]]; [discriminate |].
  assert (Hz : is_whitespace z = false).
  { rewrite E in H. apply Forall_app in H as [_ H]. now inversion H. }
  assert (Ha : is_whitespace a = false) by now inversion H.
  destruct s' as [| b s'].
  - injection E as -> ->. now apply trim_single.
  - injection E as <- ->. now apply trim_id.
Qed.

Lemma digit_in_10 d : 0 <= d < 10 -> digit_in 10 (48 + Z.to_N d)%N = Some d.
Proof.
  intros H. unfold digit_in, is_digit.
  replace ((48 <=? 48 + Z.to_N d)%N) with true by (symmetry; apply N.leb_le; lia).
  replace ((48 + Z.to_N d <=? 57)%N) with true by (symmetry; apply N.leb_le; lia).
  cbn [andb]. replace (Z.of_N (48 + Z.to_N d - 48)) with d by lia.
  now replace (d <? 10) with true by (symmetry; apply Z.ltb_lt; lia).
Qed.

Lemma is_digit_digit d : 0 <= d < 10 -> is_digit (48 + Z.to_N d)%N = true.
Proof.
  intros H. unfold is_digit. apply andb_true_iff. split; apply N.leb_le; lia.
Qed.

Lemma digits_of_acc fuel : forall n acc, digits_of fuel n acc = digits_of fuel n [] ++ acc.
Proof.
  induction fuel as [| f IH]; intros n acc; simpl.
  - reflexivity.
  - destruct (n <? 10); [reflexivity |].
    rewrite IH. rewrite (IH _ [_]). now rewrite <- app_assoc.
Qed.

Lemma digits_of_digits fuel : forall n acc,
  0 <= n -> Forall (fun c => is_digit c = true) acc ->
  Forall (fun c => is_digit c = true) (digits_of fuel n acc).
Proof.
  induction fuel as [| f IH]; intros n acc Hn Hacc; simpl.
  - constructor; [| assumption]. apply is_digit_digit. apply Z.mod_pos_bound. lia.
  - assert (Hd : is_digit (48 + Z.to_N (n mod 10))%N = true)
      by (apply is_digit_digit; apply Z.mod_pos_bound; lia).
    destruct (n <? 10).
    + now constructor.
    + apply IH; [apply Z.div_pos; lia | now constructor].
Qed.

(** Reading the digits written for [n] yields [n], whatever follows. *)
Lemma digits_value_digits_of fuel : forall n rest,
  0 <= n < 2 ^ (Z.of_nat fuel + 1) ->
  digits_value 10 0 (digits_of fuel n [] ++ rest) = digits_value 10 n rest.
Proof.
  induction fuel as [| f IH]; intros n rest Hn.
  - simpl in *. rewrite digit_in_10 by (apply Z.mod_pos_bound; lia).
    rewrite Z.mod_small by lia. reflexivity.
  - cbn [digits_of]. destruct (Z.ltb_spec n 10) as [Hlt | Hge].
    + simpl. rewrite digit_in_10 by (apply Z.mod_pos_bound; lia).
      rewrite Z.mod_small by lia. reflexivity.
    + rewrite digits_of_acc, <- app_assoc. simpl.
      rewrite IH.
      * simpl. rewrite digit_in_10 by (apply Z.mod_pos_bound; lia).
        f_equal. pose proof (Z.div_mod n 10). lia.
      * split; [apply Z.div_pos; lia |].
        apply Z.div_lt_upper_bound; [lia |].
        replace (Z.of_nat (S f) + 1) with (Z.succ (Z.of_nat f + 1)) in Hn by lia.
        rewrite Z.pow_succ_r in Hn by lia. lia.
Qed.

Lemma span_digits_all s :
  Forall (fun c => is_digit c = true) s -> span_digits s = (s, []).
Proof.
  induction 1 as [| c s Hc _ IH]; simpl; [reflexivity |].
  now rewrite Hc, IH.
Qed.

Lemma parse_non_decimal_digits s :
  Forall (fun c => is_digit c = true) s -> parse_non_decimal s = None.
Proof.
  intros H. destruct s as [| a [| c ds]]; [reflexivity | |].
  { unfold parse_non_decimal. destruct a as [| a]; [reflexivity |].
    repeat (destruct a as [a | a |]; try reflexivity). }
  assert (Hc : is_digit c = true).
  { inversion H as [| ? ? _ H']. now inversion H'. }
  unfold is_digit in Hc. apply andb_true_iff in Hc as [H1 H2].
  apply N.leb_le in H1. apply N.leb_le in H2.
  unfold parse_non_decimal.
  destruct a as [| a]; [reflexivity |].
  repeat match goal with
         | |- context [N.eqb c ?k] => destruct (N.eqb_spec c k); [lia |]
         end.
  cbn [orb]. repeat (destruct a as [a | a |]; try reflexivity).
Qed.

Lemma round_half_even_1 n : round_half_even n 1 = n.
Proof.
  unfold round_half_even. rewrite Z.mod_1_r, Z.div_1_r. reflexivity.
Qed.

Lemma Qred_inject_Z n : Qred (inject_Z n) = inject_Z n.
Proof.
  unfold Qred, inject_Z.
  pose proof (Z.ggcd_gcd n 1) as Hg.
  pose proof (Z.ggcd_correct_divisors n 1) as Hd.
  destruct (Z.ggcd n 1) as [g [r1 r2]]. simpl in Hg.
  rewrite Z.gcd_1_r in Hg. subst g. destruct Hd as [-> Hd].
  assert (r2 = 1) as -> by lia. f_equal. lia.
Qed.

(** Every integer up to [2^53 - 1] is a binary64 value. *)
Lemma to_double_safe n : 0 <= n < 2 ^ 53 -> to_double n 1 = Fin false (inject_Z n).
Proof.
  intros Hn. unfold to_double.
  destruct (Z.eqb_spec n 0) as [-> | Hne]; [reflexivity |].
  assert (Hlog : 2 ^ Z.log2 n <= n < 2 ^ Z.succ (Z.log2 n)) by (apply Z.log2_spec; lia).
  assert (Hl0 : 0 <= Z.log2 n) by apply Z.log2_nonneg.
  assert (Hl53 : Z.log2 n < 53).
  { apply Z.log2_lt_pow2; lia. }
  assert (He : ilog2 n 1 = Z.log2 n).
  { unfold ilog2, pow2_le. change (Z.log2 1) with 0. rewrite Z.sub_0_r.
    replace (0 <=? Z.log2 n) with true by (symmetry; apply Z.leb_le; lia).
    replace (1 * 2 ^ Z.log2 n <=? n) with true by (symmetry; apply Z.leb_le; lia).
    reflexivity. }
  rewrite He. cbv zeta.
  rewrite Z.max_l by lia.
  destruct (Z.leb_spec 0 (Z.log2 n - 52)) as [Hp | Hp].
  - assert (Z.log2 n = 52) as -> by lia.
    change (52 - 52) with 0. change (2 ^ 0) with 1. change (1 * 1) with 1.
    rewrite round_half_even_1, Z.mul_1_r.
    replace (2 ^ 1024 <=? n) with false; [reflexivity |].
    symmetry. apply Z.leb_gt. eapply Z.lt_trans; [apply Hn |]. reflexivity.
  - rewrite round_half_even_1. f_equal.
    rewrite <- Qred_inject_Z. apply Qred_complete.
    unfold Qeq, inject_Z. simpl Qnum. simpl Qden.
    rewrite Z2Pos.id by (apply Z.pow_pos_nonneg; lia). lia.
Qed.

Lemma toString_digits n :
  0 <= n -> Forall (fun c => is_digit c = true) (digits_of (Z.to_nat (Z.log2 n)) n []).
Proof. intros Hn. now apply digits_of_digits. Qed.

Lemma digits_of_not_nil fuel n acc : digits_of fuel n acc <> [].
Proof.
  revert n acc. induction fuel as [| f IH]; intros n acc; simpl.
  - discriminate.
  - destruct (n <? 10); [discriminate | apply IH].
Qed.

Lemma parse_unsigned_digits s n :
  s <> [] -> Forall (fun c => is_digit c = true) s ->
  digits_value 10 0 s = Some n -> 0 <= n < 2 ^ 53 ->
  parse_unsigned_decimal s = Fin false (inject_Z n).
Proof.
  intros Hne Hd Hv Hn.
  assert (Hinf : jsstring_eqb s (str "Infinity") = false).
  { unfold jsstring_eqb. case_decide as E; [| reflexivity].
    subst s. inversion Hd as [| ? ? Hc _]. discriminate Hc. }
  unfold parse_unsigned_decimal. rewrite Hinf, (span_digits_all _ Hd).
  destruct s as [| c s]; [contradiction |].
  cbn [is_nil andb]. rewrite app_nil_r, Hv. cbn [parse_exponent length].
  unfold of_decimal. simpl (0 - Z.of_nat 0). cbn [Z.leb Z.compare].
  change (10 ^ 0) with 1. rewrite Z.mul_1_r. now apply to_double_safe.
Qed.

Lemma digits_value_toString n :
  0 <= n -> digits_value 10 0 (digits_of (Z.to_nat (Z.log2 n)) n []) = Some n.
Proof.
  intros Hn.
  rewrite <- (app_nil_r (digits_of _ _ _)), digits_value_digits_of; [reflexivity |].
  split; [assumption |].
  rewrite Z2Nat.id by apply Z.log2_nonneg.
  destruct (Z.eq_dec n 0) as [-> | Hne]; [reflexivity |].
  apply Z.log2_spec. lia.
Qed.

(** Reading back the decimal text of a safe integer gives that integer. *)
Lemma StringToNumber_toString z :
  Z.abs z < 2 ^ 53 -> StringToNumber (toString z) = of_Z z.
Proof.
  intros Hz. unfold toString, of_Z.
  set (n := Z.abs z) in *.
  assert (Hn : 0 <= n) by apply Z.abs_nonneg.
  pose proof (toString_digits n Hn) as Hd.
  pose proof (digits_value_toString n Hn) as Hv.
  pose proof (digits_of_not_nil (Z.to_nat (Z.log2 n)) n []) as Hne.
  set (ds := digits_of (Z.to_nat (Z.log2 n)) n []) in *.
  assert (Hws : Forall (fun c => is_whitespace c = false) ds).
  { eapply List.Forall_impl; [| exact Hd]. intros c Hc. now apply digit_not_whitespace. }
  assert (Hp : parse_unsigned_decimal ds = Fin false (inject_Z n))
    by (apply parse_unsigned_digits; auto; lia).
  unfold StringToNumber.
  destruct (z <? 0).
  - rewrite trim_no_whitespace by (constructor; [reflexivity | assumption]).
    replace (parse_non_decimal (45%N :: ds)) with (@None number) by reflexivity.
    cbn [N.eqb Pos.eqb]. rewrite Hp. reflexivity.
  - rewrite trim_no_whitespace by assumption.
    destruct ds as [| c u] eqn:E; [contradiction |].
    rewrite parse_non_decimal_digits by assumption.
    assert (Hc : is_digit c = true) by now inversion Hd.
    unfold is_digit in Hc. apply andb_true_iff in Hc as [H1 H2].
    apply N.leb_le in H1. apply N.leb_le in H2.
    destruct (N.eqb_spec c 43); [lia |].
    destruct (N.eqb_spec c 45); [lia |].
    exact Hp.
Qed.

Lemma equal_refl_fin s q : equal (Fin s q) (Fin s q) = true.
Proof.
  simpl. rewrite (proj2 (Qeq_bool_iff q q)) by reflexivity.
  now rewrite Bool.eqb_reflx.
Qed.

(** Two integers that are equal as Numbers are the same integer. *)
Lemma equal_of_Z a b : equal (of_Z a) (of_Z b) = true -> a = b.
Proof.
  unfold of_Z, equal. intros H.
  apply andb_true_iff in H as [Hq Hs].
  apply Qeq_bool_iff in Hq. unfold Qeq, inject_Z in Hq. simpl in Hq.
  apply orb_true_iff in Hs as [Hs | Hs].
  - apply Bool.eqb_prop in Hs.
    destruct (Z.ltb_spec a 0), (Z.ltb_spec b 0); try discriminate; lia.
  - apply Qeq_bool_iff in Hs. unfold Qeq, inject_Z in Hs. simpl in Hs. lia.
Qed.

End NumFacts.

(** ** The API service *)

Module ServerFacts.
Import Server.

(** [Array.prototype.find] returns the first element the predicate holds of. *)
Lemma find_first {A} (f : A -> bool) (l : list A) (x : A) :
  find f l = Some x <->
  exists before after,
    l = before ++ x :: after /\ f x = true /\ Forall (fun y => f y = false) before.
Proof.
  split.
  - induction l as [| a l IH]; simpl; [discriminate |].
    destruct (f a) eqn:Fa.
    + intros [= ->]. exists [], l. auto.
    + intros H. destruct (IH H) as (before & after & -> & Hx & Hb).
      exists (a :: before), after. auto.
  - intros (before & after & -> & Hx & Hb).
    induction Hb as [| a before Ha _ IH]; simpl.
    + now rewrite Hx.
    + now rewrite Ha.
Qed.

Lemma find_user_in users p u :
  find_user users p = Some u ->
  In u users /\ loose_eq_number_string (Num.of_Z (id u)) p = true.
Proof. intros H. apply find_some in H. exact H. Qed.

(** C1. GET /api/users/:id: when some user of the array matches the id
    (under [==]), the body is the record of a matching user, plaintext
    password included, and the status is 200; when none matches, the body
    is [{error: "User not found"}] and the status is 200 as well. The
    array is left as it was. *)
Theorem C1_get_user_200_in_both_cases (e : env) (users : list User) (p : jsstring) :
  let matches u := loose_eq_number_string (Num.of_Z (id u)) p in
  ((exists u, In u users /\ matches u = true) ->
   exists u, In u users /\ matches u = true /\
     handle e users (GetUser p)
       = (users, Responded (mkResponse 200 (Json (user_value u)))) /\
     get (user_value u) (str "password") = password u)
  /\ ((forall u, In u users -> matches u = false) ->
      handle e users (GetUser p) = (users, Responded (mkResponse 200 (Json not_found))))
  /\ (exists r, handle e users (GetUser p) = (users, Responded r) /\ status r = 200).
Proof.
  intros matches. subst matches. cbn [handle]. unfold get_user. repeat split.
  - intros (u & Hin & Hm).
    destruct (find_user users p) as [u' |] eqn:F.
    + apply find_user_in in F as [Hin' Hm'].
      exists u'. repeat split; auto.
    + unfold find_user in F. eapply find_none in F; [| exact Hin].
      cbv beta in F. rewrite F in Hm. discriminate Hm.
  - intros Hnone.
    destruct (find_user users p) as [u' |] eqn:F; [| reflexivity].
    apply find_user_in in F as [Hin' Hm']. specialize (Hnone _ Hin').
    cbv beta in Hnone. rewrite Hnone in Hm'. discriminate Hm'.
  - destruct (find_user users p); eexists; split; reflexivity.
Qed.

Lemma C1_witness :
  exists u, In u initial_users /\
    handle (mkEnv (fun _ => Missing) [] 0 None) initial_users (GetUser (str "2"))
      = (initial_users, Responded (mkResponse 200 (Json (user_value u)))) /\
    get (user_value u) (str "password") = VStr (str "admin").
Proof.
  destruct (C1_get_user_200_in_both_cases
              (mkEnv (fun _ => Missing) [] 0 None) initial_users (str "2"))
    as (Hfound & _ & _).
  destruct Hfound as (u & Hin & Hm & Hr & Hp).
  - exists (mkUser 2 (VStr (str "Jane")) (VStr (str "jane@test.com")) (VStr (str "admin"))).
    split; [right; left; reflexivity | vm_compute; reflexivity].
  - exists u. repeat split; [exact Hin | exact Hr |].
    rewrite Hp. destruct Hin as [<- | [<- | []]]; [discriminate Hm | reflexivity].
Defined.

(** C2. POST /api/users appends one record whose id is the length of the
    array plus one and whose name, email and password are the fields of
    the request body as they came, whatever they are and whatever ids
    the array already holds, and answers with that record. *)
Theorem C2_post_user_appends_unvalidated (e : env) (users : list User) (b : user_body) :
  let newUser :=
    mkUser (Z.of_nat (length users) + 1) (body_name b) (body_email b) (body_password b) in
  handle e users (PostUser b)
    = (users ++ [newUser], Responded (mkResponse 200 (Json (user_value newUser)))).
Proof. reflexivity. Qed.

(** No collision check: in an array where id 2 is taken by the only
    record, the next POST hands out id 2 again. *)
Example post_user_collision :
  let users := [mkUser 2 VNull VNull VNull] in
  map id (fst (post_user users (mkBody VUndefined VUndefined VUndefined))) = [2; 2].
Proof. reflexivity. Qed.

(** *** Ids handed out by POSTs *)

Lemma reachable_ids users :
  reachable users -> map id users = map nth_id (seq 0 (length users)).
Proof.
  induction 1 as [| users b _ IH]; [reflexivity |].
  simpl. rewrite map_app, length_app, IH. simpl.
  rewrite Nat.add_1_r, seq_S, map_app. reflexivity.
Qed.

Lemma nth_id_sorted start len : StronglySorted Z.lt (map nth_id (seq start len)).
Proof.
  revert start. induction len as [| len IH]; intros start; simpl; constructor.
  - apply IH.
  - apply List.Forall_forall. intros x Hx.
    apply in_map_iff in Hx as (i & <- & Hi). apply in_seq in Hi.
    unfold nth_id. lia.
Qed.

Lemma sorted_lt_NoDup l : StronglySorted Z.lt l -> List.NoDup l.
Proof.
  induction 1 as [| a l _ IH Ha]; constructor; [| exact IH].
  intros Hin. rewrite List.Forall_forall in Ha. specialize (Ha _ Hin). lia.
Qed.

(** A run of POSTs appends the records it answers with, and their ids
    continue the count from the length of the array. *)
Lemma handle_all_posts e bodies : forall users,
  exists created,
    handle_all e users (map PostUser bodies)
      = (users ++ created, map (fun u => Responded (res_json (user_value u))) created)
    /\ map id created = map nth_id (seq (length users) (length bodies)).
Proof.
  induction bodies as [| b bodies IH]; intros users.
  - exists []. simpl. now rewrite app_nil_r.
  - simpl.
    destruct (IH (users ++
      [mkUser (Z.of_nat (length users) + 1) (body_name b) (body_email b) (body_password b)]))
      as (created & Hrun & Hids).
    rewrite Hrun.
    eexists (_ :: created). split.
    + rewrite <- app_assoc. reflexivity.
    + simpl. f_equal. rewrite Hids, length_app, Nat.add_1_r. reflexivity.
Qed.

(** C6. From any state of the array that POSTs alone have produced, POSTs
    handled one after the other each get an id strictly greater than the
    one before (and than every id already present), and the ids in the
    array stay pairwise distinct. *)
Theorem C6_sequential_posts_increasing_unique_ids
    (e : env) (users : list User) (bodies : list user_body) :
  reachable users ->
  exists created,
    handle_all e users (map PostUser bodies)
      = (users ++ created, map (fun u => Responded (res_json (user_value u))) created)
    /\ length created = length bodies
    /\ StronglySorted Z.lt (map id created)
    /\ Forall (fun new => Forall (fun old => id old < id new) users) created
    /\ List.NoDup (map id (users ++ created)).
Proof.
  intros Hreach.
  destruct (handle_all_posts e bodies users) as (created & Hrun & Hids).
  exists created. split; [exact Hrun |].
  pose proof (reachable_ids users Hreach) as Hold.
  assert (Hall : map id (users ++ created)
                 = map nth_id (seq 0 (length users + length bodies))).
  { rewrite map_app, Hold, Hids, seq_app, map_app. reflexivity. }
  repeat split.
  - rewrite <- (length_map id), Hids, length_map, length_seq. reflexivity.
  - rewrite Hids. apply nth_id_sorted.
  - apply List.Forall_forall. intros new Hnew. apply List.Forall_forall. intros old Hin.
    apply (in_map id) in Hnew. apply (in_map id) in Hin.
    rewrite Hids in Hnew. rewrite Hold in Hin.
    apply in_map_iff in Hnew as (i & <- & Hi). apply in_map_iff in Hin as (j & <- & Hj).
    apply in_seq in Hi. apply in_seq in Hj. unfold nth_id. lia.
  - rewrite Hall. apply sorted_lt_NoDup, nth_id_sorted.
Qed.

Lemma C6_witness :
  exists created,
    handle_all (mkEnv (fun _ => Missing) [] 0 None) initial_users
      (map PostUser [mkBody (VStr (str "Ann")) VUndefined VNull;
                     mkBody (VStr (str "Bob")) VUndefined VNull])
      = (initial_users ++ created,
         map (fun u => Responded (res_json (user_value u))) created)
    /\ length created = 2%nat
    /\ StronglySorted Z.lt (map id created)
    /\ List.NoDup (map id (initial_users ++ created)).
Proof.
  destruct (C6_sequential_posts_increasing_unique_ids
              (mkEnv (fun _ => Missing) [] 0 None) initial_users
              [mkBody (VStr (str "Ann")) VUndefined VNull;
               mkBody (VStr (str "Bob")) VUndefined VNull]
              reachable_initial)
    as (created & Hrun & Hlen & Hsorted & _ & Hnodup).
  exists created. auto.
Defined.

(** C7. POST /api/users followed by GET /api/all-users: the array in the
    response is the array from before the POST with the new record at its
    end, one longer than before. *)
Theorem C7_post_then_all_users (e : env) (users : list User) (b : user_body) :
  exists newUser users',
    handle e users (PostUser b) = (users', Responded (res_json (user_value newUser)))
    /\ handle e users GetAllUsers
         = (users, Responded (res_json (VArr (map user_value users))))
    /\ handle e users' GetAllUsers
         = (users', Responded (res_json (VArr (map user_value users ++ [user_value newUser]))))
    /\ length (map user_value users ++ [user_value newUser]) = S (length users).
Proof.
  eexists _, _. split; [reflexivity |]. split; [reflexivity |]. split.
  - simpl. unfold get_all_users. rewrite map_app. reflexivity.
  - rewrite length_app, length_map. simpl. lia.
Qed.

(** C4. GET /api/async-operation ends in one of two ways, by the draw of
    [Math.random()]: at most 0.5, the response [{data: "Success"}]; above
    0.5, the error "Random service failure" rejects the handler's promise,
    nothing handles it and no response is sent. The two exclude each other. *)
Theorem C4_async_operation_success_or_unhandled (e : env) (users : list User) :
  (Qle (random e) (1 # 2) /\
   handle e users GetAsyncOperation
     = (users, Responded (mkResponse 200 (Json (VObj [(str "data", VStr (str "Success"))])))))
  \/ (Qlt (1 # 2) (random e) /\
      exists err,
        handle e users GetAsyncOperation = (users, Unhandled err)
        /\ message err = str "Random service failure"
        /\ forall r, handle e users GetAsyncOperation <> (users, Responded r)).
Proof.
  simpl. unfold get_async_operation, someAsyncOperation.
  destruct (Qlt_le_dec (1 # 2) (random e)) as [Hgt | Hle].
  - right. split; [exact Hgt |]. eexists. split; [reflexivity |].
    split; [reflexivity |]. intros r. discriminate.
  - left. split; [exact Hle | reflexivity].
Qed.

(** *** File reads that fail *)

(** Whatever [NODE_ENV] says, a missing file is answered with status 500
    and a body that spells out the path that was opened: as [path], and
    again inside [error] and [stack]. *)
Lemma get_file_missing (e : env) (filename : jsstring) :
  fs_lookup e (str "./uploads/" ++ filename) = Missing ->
  let p := str "./uploads/" ++ filename in
  let msg := str "ENOENT: no such file or directory, open '" ++ p ++ str "'" in
  get_file e filename
    = mkResponse 500
        (Json (VObj [(str "error", VStr msg);
                     (str "stack", VStr (str "Error: " ++ msg ++ stack_frames e));
                     (str "path", VStr p)])).
Proof. intros H. unfold get_file, readFileSync. rewrite H. reflexivity. Qed.

(** C5. GET /api/file/missing.txt in production mode, the file not being
    there: the response is a failure (status 500), and its body hands the
    caller the file-system path [./uploads/missing.txt], in [path] and in
    the text of [error]. *)
Theorem C5_missing_file_leaks_path_in_production (users : list User) :
  NODE_ENV production = Some (str "production") /\
  exists body,
    handle production users (GetFile (str "missing.txt"))
      = (users, Responded (mkResponse 500 (Json body)))
    /\ get body (str "path") = VStr (str "./uploads/missing.txt")
    /\ get body (str "error")
       = VStr (str "ENOENT: no such file or directory, open './uploads/missing.txt'").
Proof.
  split; [reflexivity |]. eexists. split; [reflexivity |]. split; reflexivity.
Qed.

(** *** The lookup compares with [==] *)

(** C10. The lookup of GET /api/users/:id compares the stored Number with
    the path parameter, a String, under [==]: it returns the first record
    in insertion order whose id is loosely equal to the parameter; for
    every record of the array (its id a safe integer) the lookup with the
    decimal text of its id succeeds, with a record of that same id; and
    under [===] no lookup would find anything. *)
Theorem C10_lookup_uses_loose_equality (users : list User) :
  (forall p u,
     find_user users p = Some u <->
     exists before after,
       users = before ++ u :: after
       /\ loose_eq_number_string (Num.of_Z (id u)) p = true
       /\ Forall (fun x => loose_eq_number_string (Num.of_Z (id x)) p = false) before)
  /\ (forall u,
        In u users -> Z.abs (id u) < 2 ^ 53 ->
        exists u',
          find_user users (Num.toString (id u)) = Some u'
          /\ id u' = id u
          /\ get_user users (Num.toString (id u)) = mkResponse 200 (Json (user_value u')))
  /\ (forall p, find_user_strict users p = None).
Proof.
  split; [| split].
  - intros p u. unfold find_user.
    apply (find_first (fun x => loose_eq_number_string (Num.of_Z (id x)) p)).
  - intros u Hin Hsafe.
    assert (Hself : loose_eq_number_string (Num.of_Z (id u)) (Num.toString (id u)) = true).
    { unfold loose_eq_number_string.
      rewrite NumFacts.StringToNumber_toString by exact Hsafe.
      apply NumFacts.equal_refl_fin. }
    destruct (find_user users (Num.toString (id u))) as [u' |] eqn:F.
    + exists u'. split; [reflexivity |]. split.
      * apply find_user_in in F as [_ Hm]. unfold loose_eq_number_string in Hm.
        rewrite NumFacts.StringToNumber_toString in Hm by exact Hsafe.
        now apply NumFacts.equal_of_Z.
      * unfold get_user. now rewrite F.
    + unfold find_user in F. eapply find_none in F; [| exact Hin].
      cbv beta in F. rewrite F in Hself. discriminate Hself.
  - intros p. unfold find_user_strict.
    induction users as [| u users IH]; [reflexivity | exact IH].
Qed.

Lemma C10_witness :
  exists u',
    find_user initial_users (str "2") = Some u'
    /\ id u' = 2
    /\ get_user initial_users (str "2") = mkResponse 200 (Json (user_value u')).
Proof.
  destruct (C10_lookup_uses_loose_equality initial_users) as (_ & Hdecimal & _).
  apply (Hdecimal (mkUser 2 (VStr (str "Jane")) (VStr (str "jane@test.com"))
                     (VStr (str "admin")))).
  - right; left; reflexivity.
  - reflexivity.
Defined.

End ServerFacts.

(** ** The client application *)

Module ClientFacts.
Import Client.

Lemma flush_cells b :
  let st := flush b in
  count st = count (cells b) /\ users st = users (cells b)
  /\ loading st = loading (cells b) /\ store st = store (cells b)
  /\ phase st = phase (cells b) /\ requests st = requests (cells b).
Proof.
  unfold flush. destruct (dirty b); [| auto 10].
  destruct (view (cells b)); simpl; auto 10.
Qed.

Lemma Object_is_ref l : Object_is (Ref l) (Ref l) = true.
Proof. simpl. now apply bool_decide_eq_true. Qed.

(** [addUser] writes to the array in the store and leaves every state
    cell and the page as they are: [setUsers] gets the reference the cell
    already holds, so nothing is rendered again. *)
Lemma addUser_no_render newUser st st' :
  addUser newUser st = Some st' ->
  view st' = view st /\ users st' = users st
  /\ exists l elems,
       users st = Ref l /\ store st !! l = Some (VArr elems)
       /\ store st' !! l = Some (VArr (elems ++ [newUser])).
Proof.
  unfold addUser, push. destruct st as [c u ld sigma ph rq vw]; simpl.
  destruct u as [v | l]; [discriminate |].
  destruct (sigma !! l) as [[| | | | | elems |] |] eqn:E; try discriminate.
  intros [= <-]. unfold flush, setUsers, begin, with_store.
  cbn [cells dirty users view store orb]. rewrite (Object_is_ref l).
  cbn [negb store]. repeat split.
  exists l, elems. repeat split; auto. apply lookup_insert_eq.
Qed.

(** C3. The page shows one user, loaded from a response whose body was
    the array [[{id: 1, name: "John"}]]. A click on its "Add User" button
    puts the new record into the array, but the page still shows the one
    entry it showed before: it has not grown by one. *)
Theorem C3_add_user_click_page_does_not_grow :
  exists st st' l,
    run initial [Mount; FetchSettled true; JsonSettled (Some (VArr [john]))] = Some st
    /\ step st (ClickAddUser 0 1700000000000) = Some st'
    /\ rendered_users st = Some [VStr (str "John")]
    /\ rendered_users st' = Some [VStr (str "John")]
    /\ users st' = Ref l
    /\ store st' !! l = Some (VArr [john; new_user 1700000000000]).
Proof.
  eexists _, _, _. split; [vm_compute; reflexivity |].
  split; [vm_compute; reflexivity |].
  repeat split; vm_compute; reflexivity.
Qed.

(** *** The loading flag *)

Lemma step_loading st ev st' :
  loading_while_fetching st -> step st ev = Some st' -> loading_while_fetching st'.
Proof.
  unfold loading_while_fetching. intros Inv Hstep.
  destruct ev as [| resolved | parsed | | index now]; simpl in Hstep.
  - destruct (phase st) eqn:P; try discriminate.
    destruct (requests st); try discriminate. injection Hstep as <-.
    unfold fetchUsers_start.
    destruct (flush_cells (on_cells (with_phase AwaitingFetch)
      (on_cells (with_request (str "/api/users/" ++ Num.toString (count st)))
         (setLoading true (begin st))))) as (_ & _ & -> & _ & -> & _).
    simpl. split; [discriminate | reflexivity].
  - destruct (phase st) eqn:P; try discriminate. injection Hstep as <-.
    unfold fetchUsers_fetched. destruct resolved.
    + simpl. split; [discriminate |]. intros _. apply Inv. discriminate.
    + destruct (flush_cells (setLoading false (begin (with_phase Idle st))))
        as (_ & _ & -> & _ & -> & _).
      simpl. split; [discriminate | congruence].
  - destruct (phase st) eqn:P; try discriminate. injection Hstep as <-.
    unfold fetchUsers_parsed. destruct parsed as [data |].
    + destruct (allocate data (store st)) as [v sigma].
      destruct (flush_cells (setLoading false
        (setUsers v (begin (with_phase Idle (with_store sigma st))))))
        as (_ & _ & -> & _ & -> & _).
      simpl. split; [discriminate | congruence].
    + destruct (flush_cells (setLoading false (begin (with_phase Idle st))))
        as (_ & _ & -> & _ & -> & _).
      simpl. split; [discriminate | congruence].
  - destruct (view st); try discriminate. injection Hstep as <-.
    destruct (flush_cells (setCount (fun count => count + 1) (begin st)))
      as (_ & _ & -> & _ & -> & _).
    exact Inv.
  - destruct (view st) as [| ? ? entries]; try discriminate.
    destruct (index <? length entries)%nat; try discriminate.
    unfold addUser in Hstep.
    destruct (push (users st) _ (store st)) as [sigma |]; try discriminate.
    injection Hstep as <-.
    destruct (flush_cells (setUsers (users st) (begin (with_store sigma st))))
      as (_ & _ & -> & _ & -> & _).
    exact Inv.
Qed.

Lemma run_loading evs : forall st st',
  loading_while_fetching st -> run st evs = Some st' -> loading_while_fetching st'.
Proof.
  induction evs as [| ev evs IH]; intros st st' Inv Hrun; simpl in Hrun.
  - now injection Hrun as <-.
  - destruct (step st ev) as [st1 |] eqn:Hstep; [| discriminate].
    eapply IH; [| exact Hrun]. eapply step_loading; eauto.
Qed.

(** C8. In [fetchUsers] the loading flag is true exactly while the fetch
    is under way: false before; set to true, and the request issued, by
    the start of [fetchUsers]; still true while the body is awaited; and
    false again once the fetch has settled, whether with data, with a
    rejected [fetch] or with a rejected [response.json()], the last two
    leaving [users] as it was and raising nothing. *)
Theorem C8_loading_true_exactly_while_fetching (evs : list event) (st : state) :
  run initial evs = Some st ->
  (loading st = true <-> phase st <> Idle)
  /\ loading initial = false
  /\ (forall userId,
        let st' := fetchUsers_start userId st in
        loading st' = true /\ phase st' = AwaitingFetch
        /\ requests st' = requests st ++ [str "/api/users/" ++ Num.toString userId])
  /\ (phase st = AwaitingFetch ->
        (exists st', step st (FetchSettled true) = Some st'
           /\ loading st' = true /\ phase st' = AwaitingJson)
        /\ (exists st', step st (FetchSettled false) = Some st'
           /\ loading st' = false /\ phase st' = Idle /\ users st' = users st))
  /\ (phase st = AwaitingJson ->
        (forall data, exists st', step st (JsonSettled (Some data)) = Some st'
           /\ loading st' = false /\ phase st' = Idle)
        /\ (exists st', step st (JsonSettled None) = Some st'
           /\ loading st' = false /\ phase st' = Idle /\ users st' = users st)).
Proof.
  intros Hrun.
  assert (Inv : loading_while_fetching st).
  { eapply run_loading; [| exact Hrun]. split; [discriminate | now intros []]. }
  split; [exact Inv |]. split; [reflexivity |]. split; [| split].
  - intros userId st'. subst st'. unfold fetchUsers_start.
    destruct (flush_cells (on_cells (with_phase AwaitingFetch)
      (on_cells (with_request (str "/api/users/" ++ Num.toString userId))
         (setLoading true (begin st))))) as (_ & _ & -> & _ & -> & ->).
    auto.
  - intros P. split.
    + eexists. simpl. rewrite P. split; [reflexivity |]. simpl.
      split; [| reflexivity]. apply Inv. congruence.
    + eexists. simpl. rewrite P. split; [reflexivity |]. unfold fetchUsers_fetched.
      destruct (flush_cells (setLoading false (begin (with_phase Idle st))))
        as (_ & -> & -> & _ & -> & _).
      auto.
  - intros P. split.
    + intros data. eexists. simpl. rewrite P. split; [reflexivity |].
      unfold fetchUsers_parsed. destruct (allocate data (store st)) as [v sigma].
      destruct (flush_cells (setLoading false
        (setUsers v (begin (with_phase Idle (with_store sigma st))))))
        as (_ & _ & -> & _ & -> & _).
      auto.
    + eexists. simpl. rewrite P. split; [reflexivity |]. unfold fetchUsers_parsed.
      destruct (flush_cells (setLoading false (begin (with_phase Idle st))))
        as (_ & -> & -> & _ & -> & _).
      auto.
Qed.

Lemma C8_witness :
  exists st,
    run initial [Mount] = Some st
    /\ loading st = true
    /\ (exists st', step st (FetchSettled false) = Some st'
          /\ loading st' = false /\ phase st' = Idle /\ users st' = users st).
Proof.
  eexists. split; [vm_compute; reflexivity |].
  destruct (C8_loading_true_exactly_while_fetching [Mount] _ eq_refl)
    as (Hinv & _ & _ & Hfetch & _).
  split.
  - apply Hinv. discriminate.
  - apply Hfetch. reflexivity.
Defined.

End ClientFacts.

(** ** The page mounted against the service *)

Module SystemFacts.
Import Client.

(** No record of an array that only POSTs have written to has id 0. *)
Lemma reachable_no_id_0 users :
  Server.reachable users -> Server.find_user users (str "0") = None.
Proof.
  intros Hreach. pose proof (ServerFacts.reachable_ids users Hreach) as Hids.
  destruct (Server.find_user users (str "0")) as [u |] eqn:F; [| reflexivity].
  apply ServerFacts.find_user_in in F as [Hin Hm].
  apply (in_map Server.id) in Hin. rewrite Hids in Hin.
  apply in_map_iff in Hin as (i & Hi & _).
  unfold loose_eq_number_string in Hm.
  change (Num.StringToNumber (str "0")) with (Num.of_Z 0) in Hm.
  apply NumFacts.equal_of_Z in Hm. unfold Server.nth_id in Hi. lia.
Qed.

(** C9. On mount the page requests [/api/users/0], the counter's initial
    0 standing in for a user id; the service, holding its two initial
    records, has no user 0 and answers [{error: "User not found"}]; the
    page stores that object in [users], which from then on holds an
    object that is not an array. *)
Theorem C9_mount_stores_the_error_object (e : Server.env) :
  exists st1 st l,
    count initial = 0
    /\ step initial Mount = Some st1
    /\ requests st1 = [str "/api/users/0"]
    /\ Wire.route_get (str "/api/users/0") = Some (Server.GetUser (str "0"))
    /\ Server.find_user Server.initial_users (str "0") = None
    /\ Server.handle e Server.initial_users (Server.GetUser (str "0"))
       = (Server.initial_users,
          Server.Responded (Server.mkResponse 200 (Server.Json Server.not_found)))
    /\ System.mount e Server.initial_users = Some st
    /\ users st = Ref l
    /\ store st !! l = Some Server.not_found
    /\ (forall elems, store st !! l <> Some (VArr elems))
    /\ loading st = false.
Proof.
  eexists _, _, _.
  split; [reflexivity |]. split; [reflexivity |].
  split; [vm_compute; reflexivity |]. split; [vm_compute; reflexivity |].
  split; [vm_compute; reflexivity |]. split; [vm_compute; reflexivity |].
  split; [vm_compute; reflexivity |]. split; [vm_compute; reflexivity |].
  split; [vm_compute; reflexivity |]. split; [| vm_compute; reflexivity].
  intros elems. vm_compute. discriminate.
Qed.

(** With an object in [users], [users.map] is not a function: the render
    that follows throws and the page is gone. *)
Remark mount_crashes_the_page (e : Server.env) :
  exists st, System.mount e Server.initial_users = Some st /\ view st = Crashed.
Proof. eexists. split; vm_compute; reflexivity. Qed.

End SystemFacts.

(** ** More on the coercion of the path parameter *)

Module CoercionFacts.
Import Num.

Lemma trim_start_whitespace ws s : all_whitespace ws -> trim_start (ws ++ s) = trim_start s.
Proof.
  induction 1 as [| c ws Hc _ IH]; simpl; [reflexivity |]. now rewrite Hc.
Qed.

Lemma trim_start_app s ws :
  all_whitespace ws ->
  trim_start (s ++ ws) = match trim_start s with [] => [] | t => t ++ ws end.
Proof.
  intros Hws. induction s as [| c s IH]; simpl.
  - rewrite <- (app_nil_r ws), trim_start_whitespace by exact Hws. reflexivity.
  - destruct (is_whitespace c); [exact IH | reflexivity].
Qed.

(** White space around a text does not reach the parser. *)
Lemma trim_padding ws s ws' :
  all_whitespace ws -> all_whitespace ws' -> trim (ws ++ s ++ ws') = trim s.
Proof.
  intros Hws Hws'. unfold trim.
  rewrite trim_start_whitespace, trim_start_app by assumption.
  destruct (trim_start s) as [| c t] eqn:E; [reflexivity |].
  rewrite rev_app_distr, trim_start_whitespace; [reflexivity |].
  unfold all_whitespace in *. rewrite List.Forall_forall in *.
  intros x Hx. apply Hws'. now apply in_rev.
Qed.

Lemma StringToNumber_padding ws s ws' :
  all_whitespace ws -> all_whitespace ws' ->
  StringToNumber (ws ++ s ++ ws') = StringToNumber s.
Proof. intros Hws Hws'. unfold StringToNumber. now rewrite trim_padding. Qed.

Lemma digits_value_nonneg s : forall a v,
  0 <= a -> digits_value 10 a s = Some v -> 0 <= v.
Proof.
  induction s as [| c s IH]; intros a v Ha Hv; simpl in Hv.
  - now injection Hv as <-.
  - destruct (digit_in 10 c) as [d |] eqn:D; [| discriminate].
    apply (IH (10 * a + d)); [| exact Hv].
    unfold digit_in in D.
    destruct (is_digit c);
      [| destruct ((97 <=? c) && (c <=? 102))%N;
         [| destruct ((65 <=? c) && (c <=? 70))%N; [| discriminate]]];
      match type of D with
      | (if ?t then _ else _) = _ => destruct t; [| discriminate]
      end; injection D as <-; lia.
Qed.

(** A text of decimal digits only reads as the integer it writes,
    leading zeros or not. *)
Lemma StringToNumber_digits s n :
  s <> [] -> Forall (fun c => is_digit c = true) s ->
  digits_value 10 0 s = Some n -> 0 <= n < 2 ^ 53 ->
  StringToNumber s = of_Z n.
Proof.
  intros Hne Hd Hv Hn.
  assert (Hws : Forall (fun c => is_whitespace c = false) s).
  { eapply List.Forall_impl; [| exact Hd].
    intros c Hc. now apply NumFacts.digit_not_whitespace. }
  unfold StringToNumber. rewrite NumFacts.trim_no_whitespace by exact Hws.
  destruct s as [| c u] eqn:E; [contradiction |].
  rewrite NumFacts.parse_non_decimal_digits by exact Hd.
  assert (Hc : is_digit c = true) by now inversion Hd.
  unfold is_digit in Hc. apply andb_true_iff in Hc as [H1 H2].
  apply N.leb_le in H1. apply N.leb_le in H2.
  destruct (N.eqb_spec c 43); [lia |].
  destruct (N.eqb_spec c 45); [lia |].
  rewrite (NumFacts.parse_unsigned_digits (c :: u) n) by auto.
  unfold of_Z. replace (n <? 0) with false by (symmetry; apply Z.ltb_ge; lia).
  now rewrite Z.abs_eq by lia.
Qed.

(** Under [==], a stored integer id matches the decimal text of [k]
    exactly when it is [k]. *)
Lemma loose_eq_decimal a k :
  Z.abs k < 2 ^ 53 ->
  loose_eq_number_string (of_Z a) (toString k) = (a =? k).
Proof.
  intros Hk. unfold loose_eq_number_string.
  rewrite NumFacts.StringToNumber_toString by exact Hk.
  destruct (Z.eqb_spec a k) as [-> | Hne].
  - apply NumFacts.equal_refl_fin.
  - destruct (equal (of_Z a) (of_Z k)) eqn:E; [| reflexivity].
    apply NumFacts.equal_of_Z in E. contradiction.
Qed.

End CoercionFacts.

(** ** More on the API service *)

Module ServiceFacts.
Import Server.

Lemma find_ext {A} (f g : A -> bool) (l : list A) :
  (forall x, f x = g x) -> find f l = find g l.
Proof.
  intros H. induction l as [| a l IH]; simpl; [reflexivity |].
  now rewrite H, IH.
Qed.

(** *** What requests do to the array *)

Lemma handle_grows e users r :
  exists created,
    fst (handle e users r) = users ++ created
    /\ length created = (if is_post r then 1 else 0)%nat.
Proof.
  destruct r; simpl; try (exists []; split; [now rewrite app_nil_r | reflexivity]).
  eexists [_]. split; reflexivity.
Qed.

Lemma handle_all_grows (e : env) (rs : list request) : forall users,
  exists created,
    fst (handle_all e users rs) = users ++ created
    /\ length created = length (List.filter is_post rs)
    /\ length (snd (handle_all e users rs)) = length rs.
Proof.
  induction rs as [| r rs IH]; intros users.
  - exists []. simpl. now rewrite app_nil_r.
  - simpl. destruct (handle_grows e users r) as (c1 & H1 & L1).
    destruct (handle e users r) as [users' o] eqn:Hh. simpl in H1. subst users'.
    destruct (IH (users ++ c1)) as (c2 & H2 & L2 & L3).
    destruct (handle_all e (users ++ c1) rs) as [users'' os]. simpl in *.
    exists (c1 ++ c2). split; [now rewrite H2, app_assoc |]. split.
    + rewrite length_app, L1, L2. now destruct (is_post r).
    + now rewrite L3.
Qed.

(** X1. Whatever requests arrive, in whatever order, the array only
    grows at its end: every record stays where it was and as it was, one
    record is added per POST and none for any other request, and every
    request gets its outcome. *)
Theorem handle_all_only_appends (e : env) (rs : list request) (users : list User) :
  exists created,
    fst (handle_all e users rs) = users ++ created
    /\ length created = length (List.filter is_post rs)
    /\ length (snd (handle_all e users rs)) = length rs.
Proof. apply handle_all_grows. Qed.

Lemma handle_reachable e users r : reachable users -> reachable (fst (handle e users r)).
Proof.
  intros H. destruct r; simpl; try exact H.
  apply (reachable_post users b H).
Qed.

Lemma handle_all_reachable e rs : forall users,
  reachable users -> reachable (fst (handle_all e users rs)).
Proof.
  induction rs as [| r rs IH]; intros users H; simpl; [exact H |].
  pose proof (handle_reachable e users r H) as H1.
  destruct (handle e users r) as [users' o]. simpl in H1.
  specialize (IH users' H1).
  destruct (handle_all e users' rs) as [users'' os]. exact IH.
Qed.

Lemma reachable_nth users i u :
  reachable users -> nth_error users i = Some u -> id u = Z.of_nat i + 1.
Proof.
  intros Hreach Hnth. pose proof (ServerFacts.reachable_ids users Hreach) as Hids.
  assert (Hi : (i < length users)%nat) by (apply nth_error_Some; congruence).
  apply (map_nth_error id) in Hnth. rewrite Hids in Hnth.
  assert (Hs : nth_error (seq 0 (length users)) i = Some i).
  { rewrite nth_error_nth' with (d := 0%nat) by now rewrite length_seq.
    now rewrite seq_nth. }
  rewrite (map_nth_error nth_id _ _ Hs) in Hnth. now injection Hnth as <-.
Qed.

(** X2. Starting from the two initial records, after any sequence of
    requests of any kind the record at index [i] has id [i + 1]: the ids
    in the array are always 1, 2, ..., its length, each once. *)
Theorem ids_count_from_one_after_any_requests (e : env) (rs : list request) :
  let users := fst (handle_all e initial_users rs) in
  (forall i u, nth_error users i = Some u -> id u = Z.of_nat i + 1)
  /\ List.NoDup (map id users)
  /\ length users = (2 + length (List.filter is_post rs))%nat.
Proof.
  intros users.
  assert (Hreach : reachable users) by (apply handle_all_reachable, reachable_initial).
  split; [| split].
  - intros i u. now apply reachable_nth.
  - rewrite (ServerFacts.reachable_ids users Hreach).
    apply ServerFacts.sorted_lt_NoDup, ServerFacts.nth_id_sorted.
  - destruct (handle_all_grows e rs initial_users) as (created & Hc & Hl & _).
    subst users. rewrite Hc, length_app, Hl. reflexivity.
Qed.

(** X3. No handler answers with a status other than 200 or 500, and 500
    is the answer only of the file route, when the read failed: a lookup
    that finds nothing, a body without fields, an unknown id, all are
    answered 200. *)
Theorem status_is_200_or_500 (e : env) (users : list User) (r : request) (resp : response) :
  snd (handle e users r) = Responded resp ->
  status resp = 200
  \/ (status resp = 500
      /\ exists filename err,
           r = GetFile filename
           /\ readFileSync e (str "./uploads/" ++ filename) = inr err).
Proof.
  destruct r; simpl.
  - intros [= <-]. now left.
  - intros [= <-]. left. unfold get_user. now destruct (find_user users id0).
  - intros [= <-]. now left.
  - intros [= <-]. unfold get_file.
    destruct (readFileSync e (str "./uploads/" ++ filename)) as [data | err] eqn:R.
    + now left.
    + right. split; [reflexivity |]. now exists filename, err.
  - unfold get_async_operation. destruct (someAsyncOperation e); [| discriminate].
    intros [= <-]. now left.
  - intros [= <-]. now left.
Qed.

Lemma status_witness :
  status (get_user initial_users (str "9")) = 200
  \/ (status (get_user initial_users (str "9")) = 500
      /\ exists filename err,
           GetUser (str "9") = GetFile filename
           /\ readFileSync production (str "./uploads/" ++ filename) = inr err).
Proof.
  apply (status_is_200_or_500 production initial_users (GetUser (str "9"))).
  reflexivity.
Defined.

(** *** Lookups in an array that only POSTs have written to *)

Lemma find_by_id k : forall users start,
  map id users = map nth_id (seq start (length users)) ->
  find (fun u => id u =? k) users
    = if Z.of_nat start + 1 <=? k
      then nth_error users (Z.to_nat (k - 1 - Z.of_nat start))
      else None.
Proof.
  induction users as [| u users IH]; intros start Hids.
  - simpl. destruct (Z.of_nat start + 1 <=? k); [| reflexivity].
    now destruct (Z.to_nat (k - 1 - Z.of_nat start)).
  - simpl in Hids. injection Hids as Hu Hrest. unfold nth_id in Hu.
    cbn [find]. destruct (Z.eqb_spec (id u) k) as [E | E].
    + replace (Z.of_nat start + 1 <=? k) with true by (symmetry; apply Z.leb_le; lia).
      replace (Z.to_nat (k - 1 - Z.of_nat start)) with 0%nat by lia. reflexivity.
    + rewrite (IH (S start) Hrest).
      destruct (Z.leb_spec (Z.of_nat (S start) + 1) k) as [Hle | Hgt].
      * replace (Z.of_nat start + 1 <=? k) with true by (symmetry; apply Z.leb_le; lia).
        replace (Z.to_nat (k - 1 - Z.of_nat start))
          with (S (Z.to_nat (k - 1 - Z.of_nat (S start)))) by lia.
        reflexivity.
      * replace (Z.of_nat start + 1 <=? k) with false by (symmetry; apply Z.leb_gt; lia).
        reflexivity.
Qed.

Lemma find_user_decimal (users : list User) (k : Z) :
  reachable users -> Z.abs k < 2 ^ 53 ->
  find_user users (Num.toString k)
    = if 1 <=? k then nth_error users (Z.to_nat (k - 1)) else None.
Proof.
  intros Hreach Hk. unfold find_user.
  rewrite (find_ext _ (fun u => id u =? k)).
  - rewrite (find_by_id k users 0%nat (ServerFacts.reachable_ids users Hreach)).
    change (Z.of_nat 0 + 1) with 1. now rewrite Z.sub_0_r.
  - intros u. now apply CoercionFacts.loose_eq_decimal.
Qed.

(** X4. In an array that only POSTs have written to, the lookup with the
    decimal text of an integer [k] finds the record at index [k - 1]
    when [1 <= k <= length], that very record and not merely one of the
    same id, and finds nothing for every other [k]; the response is that
    record, or [{error: "User not found"}]. *)
Theorem lookup_by_decimal_id (users : list User) (k : Z) :
  reachable users -> Z.abs k < 2 ^ 53 ->
  find_user users (Num.toString k)
    = (if 1 <=? k then nth_error users (Z.to_nat (k - 1)) else None)
  /\ get_user users (Num.toString k)
     = res_json (match (if 1 <=? k then nth_error users (Z.to_nat (k - 1)) else None) with
                 | Some u => user_value u
                 | None => not_found
                 end).
Proof.
  intros Hreach Hk. pose proof (find_user_decimal users k Hreach Hk) as H.
  split; [exact H |]. unfold get_user. rewrite H.
  now destruct (if 1 <=? k then nth_error users (Z.to_nat (k - 1)) else None).
Qed.

Lemma lookup_by_decimal_id_witness :
  find_user initial_users (Num.toString 2) = nth_error initial_users 1
  /\ find_user initial_users (Num.toString 3) = None.
Proof.
  split.
  - apply (proj1 (lookup_by_decimal_id initial_users 2 reachable_initial eq_refl)).
  - apply (proj1 (lookup_by_decimal_id initial_users 3 reachable_initial eq_refl)).
Defined.

(** X5. POST then GET by the id handed out: in an array that only POSTs
    have written to, the record a POST answers with is the record that
    GET /api/users/<its id> answers with right after. *)
Theorem post_then_get_by_id (e : env) (users : list User) (b : user_body) :
  reachable users -> Z.of_nat (length users) + 1 < 2 ^ 53 ->
  exists newUser users',
    handle e users (PostUser b) = (users', Responded (res_json (user_value newUser)))
    /\ handle e users' (GetUser (Num.toString (id newUser)))
       = (users', Responded (res_json (user_value newUser))).
Proof.
  intros Hreach Hlen. eexists _, _. split; [reflexivity |].
  cbn [handle id]. unfold get_user.
  rewrite find_user_decimal.
  - replace (1 <=? Z.of_nat (length users) + 1) with true by (symmetry; apply Z.leb_le; lia).
    replace (Z.to_nat (Z.of_nat (length users) + 1 - 1)) with (length users + 0)%nat by lia.
    rewrite nth_error_app2 by lia.
    replace (length users + 0 - length users)%nat with 0%nat by lia. reflexivity.
  - apply (reachable_post users b Hreach).
  - lia.
Qed.

Lemma post_then_get_by_id_witness :
  exists newUser users',
    handle production initial_users (PostUser (mkBody (VStr (str "Ann")) VUndefined VNull))
      = (users', Responded (res_json (user_value newUser)))
    /\ handle production users' (GetUser (Num.toString (id newUser)))
       = (users', Responded (res_json (user_value newUser))).
Proof.
  apply (post_then_get_by_id production initial_users
           (mkBody (VStr (str "Ann")) VUndefined VNull) reachable_initial).
  reflexivity.
Defined.

(** *** Other spellings of the parameter *)

(** X6. White space before and after the path parameter makes no
    difference to the lookup: it is dropped when [==] converts the text. *)
Theorem lookup_ignores_surrounding_whitespace
    (users : list User) (ws p ws' : jsstring) :
  Num.all_whitespace ws -> Num.all_whitespace ws' ->
  get_user users (ws ++ p ++ ws') = get_user users p.
Proof.
  intros Hws Hws'. unfold get_user, find_user, loose_eq_number_string.
  now rewrite CoercionFacts.StringToNumber_padding.
Qed.

Lemma lookup_ignores_surrounding_whitespace_witness :
  get_user initial_users (str " " ++ str "2" ++ [9; 10]%N) = get_user initial_users (str "2").
Proof.
  apply lookup_ignores_surrounding_whitespace.
  - repeat constructor.
  - repeat constructor.
Defined.

(** X7. A parameter of decimal digits only is looked up as the integer
    it writes: leading zeros change nothing, and the answer is that of
    the lookup with the plain decimal text of that integer. *)
Theorem lookup_reads_digits_as_integer (users : list User) (s : jsstring) (n : Z) :
  s <> [] -> Forall (fun c => Num.is_digit c = true) s ->
  Num.digits_value 10 0 s = Some n -> n < 2 ^ 53 ->
  get_user users s = get_user users (Num.toString n).
Proof.
  intros Hne Hd Hv Hn.
  assert (H0 : 0 <= n) by (eapply CoercionFacts.digits_value_nonneg; eauto; lia).
  unfold get_user, find_user, loose_eq_number_string.
  rewrite (CoercionFacts.StringToNumber_digits s n) by (auto; lia).
  rewrite NumFacts.StringToNumber_toString by lia. reflexivity.
Qed.

Lemma lookup_reads_digits_as_integer_witness :
  get_user initial_users (str "002") = get_user initial_users (Num.toString 2).
Proof.
  apply lookup_reads_digits_as_integer.
  - discriminate.
  - repeat constructor.
  - reflexivity.
  - reflexivity.
Defined.

(** *** The file route *)

(** X8. For every file name whose file is missing, in every environment
    and whatever [NODE_ENV] says, the file route answers with status 500
    and a JSON body that gives away the path it tried to open: as
    [path], and inside the texts of [error] and [stack]. *)
Theorem missing_file_always_leaks_path (e : env) (users : list User) (filename : jsstring) :
  fs_lookup e (str "./uploads/" ++ filename) = Missing ->
  exists body before after before' after',
    handle e users (GetFile filename) = (users, Responded (mkResponse 500 (Json body)))
    /\ get body (str "path") = VStr (str "./uploads/" ++ filename)
    /\ get body (str "error") = VStr (before ++ (str "./uploads/" ++ filename) ++ after)
    /\ get body (str "stack") = VStr (before' ++ (str "./uploads/" ++ filename) ++ after').
Proof.
  intros H. cbn [handle]. rewrite (ServerFacts.get_file_missing e filename H).
  eexists _, (str "ENOENT: no such file or directory, open '"), (str "'"),
    (str "Error: ENOENT: no such file or directory, open '"), (str "'" ++ stack_frames e).
  split; [reflexivity |]. split; [reflexivity |]. split; [reflexivity |].
  cbn [get get_prop]. unfold jsstring_eqb.
  repeat (case_decide as E; [discriminate E | clear E]).
  case_decide as E; [| contradiction]. clear E.
  f_equal. change (str "Error: ENOENT: no such file or directory, open '")
    with (str "Error: " ++ str "ENOENT: no such file or directory, open '").
  now rewrite <- !app_assoc.
Qed.

Lemma missing_file_always_leaks_path_witness :
  exists body,
    handle production [] (GetFile (str "a.txt"))
      = ([], Responded (mkResponse 500 (Json body)))
    /\ get body (str "path") = VStr (str "./uploads/a.txt").
Proof.
  destruct (missing_file_always_leaks_path production [] (str "a.txt") eq_refl)
    as (body & _ & _ & _ & _ & Hh & Hp & _).
  exists body. split; [exact Hh | exact Hp].
Defined.

End ServiceFacts.

(** ** The route table *)

Module WireFacts.

Lemma strip_prefix_app p s : Wire.strip_prefix p (p ++ s) = Some s.
Proof.
  induction p as [| a p IH]; simpl; [now destruct s |].
  now rewrite N.eqb_refl.
Qed.

Lemma toString_plain z : Wire.plain_segment (Num.toString z) = true.
Proof.
  assert (Hd : forall ds,
             Forall (fun c => Num.is_digit c = true) ds ->
             forallb (fun c => negb (existsb (N.eqb c) [47; 37; 63; 35]%N)) ds = true).
  { induction 1 as [| c ds Hc _ IH]; [reflexivity |].
    cbn [forallb]. rewrite IH, andb_true_r.
    unfold Num.is_digit in Hc. apply andb_true_iff in Hc as [H1 H2].
    apply N.leb_le in H1. apply N.leb_le in H2. cbn [existsb].
    repeat match goal with
           | |- context [N.eqb c ?k] => destruct (N.eqb_spec c k); [lia |]
           end.
    reflexivity. }
  unfold Wire.plain_segment, Num.toString.
  pose proof (NumFacts.toString_digits (Z.abs z) (Z.abs_nonneg z)) as Hds.
  pose proof (NumFacts.digits_of_not_nil (Z.to_nat (Z.log2 (Z.abs z))) (Z.abs z) []) as Hne.
  destruct (z <? 0).
  - cbn [Num.is_nil negb andb forallb]. now rewrite (Hd _ Hds).
  - rewrite (Hd _ Hds), andb_true_r.
    now destruct (Num.digits_of (Z.to_nat (Z.log2 (Z.abs z))) (Z.abs z) []).
Qed.

(** The path [/api/users/<decimal text of k>] is routed to the user
    lookup, with that text as its parameter. *)
Lemma route_decimal k :
  Wire.route_get (str "/api/users/" ++ Num.toString k)
    = Some (Server.GetUser (Num.toString k)).
Proof.
  unfold Wire.route_get.
  assert (Hne : jsstring_eqb (str "/api/users/" ++ Num.toString k)
                  (str "/api/hello") = false).
  { unfold jsstring_eqb. case_decide as E; [| reflexivity]. discriminate E. }
  rewrite Hne, strip_prefix_app, toString_plain. reflexivity.
Qed.

End WireFacts.

(** ** More on the client application *)

Module PageFacts.
Import Client.

Lemma addUser_store x st l elems :
  users st = Ref l -> store st !! l = Some (VArr elems) ->
  addUser x st
    = Some (mkState (count st) (Ref l) (loading st)
              (<[ l := VArr (elems ++ [x]) ]> (store st))
              (phase st) (requests st) (view st)).
Proof.
  intros Hu Hl. unfold addUser, push. rewrite Hu, Hl.
  unfold flush, setUsers, begin, with_store.
  cbn [cells dirty users view store count loading phase requests orb].
  rewrite Hu, (ClientFacts.Object_is_ref l). reflexivity.
Qed.

Lemma add_user_clicks_run
    (clicks : list (nat * Z)) : forall (st : state) l elems c ld entries,
  view st = Rendered c ld entries ->
  users st = Ref l ->
  store st !! l = Some (VArr elems) ->
  Forall (fun click => (fst click < length entries)%nat) clicks ->
  exists st',
    run st (add_user_clicks clicks) = Some st'
    /\ view st' = view st
    /\ users st' = Ref l
    /\ count st' = count st /\ loading st' = loading st /\ phase st' = phase st
    /\ store st' !! l = Some (VArr (elems ++ map (fun click => new_user (snd click)) clicks)).
Proof.
  induction clicks as [| [i now] clicks IH]; intros st l elems c ld entries Hv Hu Hl Hi.
  - exists st. simpl. rewrite app_nil_r. repeat split; assumption.
  - inversion Hi as [| ? ? Hi0 Hrest]; subst. simpl in Hi0.
    cbn [add_user_clicks map run step fst snd]. rewrite Hv.
    replace (i <? length entries)%nat with true by (symmetry; apply Nat.ltb_lt; lia).
    rewrite (addUser_store _ st l elems Hu Hl).
    edestruct (IH (mkState (count st) (Ref l) (loading st)
                     (<[ l := VArr (elems ++ [new_user now]) ]> (store st))
                     (phase st) (requests st) (view st))
                l (elems ++ [new_user now]) c ld entries)
      as (st' & Hrun & Hv' & Hu' & Hc' & Hld' & Hph' & Hst').
    + exact Hv.
    + reflexivity.
    + apply lookup_insert_eq.
    + exact Hrest.
    + exists st'. split; [exact Hrun |]. rewrite <- app_assoc in Hst'.
      split; [exact (eq_trans Hv' Hv) |]. split; [exact Hu' |]. split; [exact Hc' |].
      split; [exact Hld' |]. split; [exact Hph' | exact Hst'].
Qed.

(** X9. However often "Add User" is clicked, the page stays as it was:
    every click appends its record to the array that [users] refers to,
    and none of them makes React render, so the state cells and the
    entries on the page are those from before the first click. *)
Theorem add_user_clicks_never_reach_the_page
    (clicks : list (nat * Z)) (st : state) l elems c ld entries :
  view st = Rendered c ld entries ->
  users st = Ref l ->
  store st !! l = Some (VArr elems) ->
  Forall (fun click => (fst click < length entries)%nat) clicks ->
  exists st',
    run st (add_user_clicks clicks) = Some st'
    /\ view st' = view st
    /\ users st' = Ref l
    /\ count st' = count st /\ loading st' = loading st /\ phase st' = phase st
    /\ store st' !! l = Some (VArr (elems ++ map (fun click => new_user (snd click)) clicks)).
Proof. apply add_user_clicks_run. Qed.

Lemma add_user_clicks_never_reach_the_page_witness :
  run initial [Mount; FetchSettled true; JsonSettled (Some (VArr [john]))]
    = Some one_user_page
  /\ exists st',
       run one_user_page (add_user_clicks [(0%nat, 5); (0%nat, 6)]) = Some st'
       /\ view st' = Rendered 0 false [VStr (str "John")]
       /\ store st' !! 1%nat = Some (VArr [john; new_user 5; new_user 6]).
Proof.
  split; [vm_compute; reflexivity |].
  destruct (add_user_clicks_never_reach_the_page [(0%nat, 5); (0%nat, 6)]
              one_user_page 1%nat [john] 0 false [VStr (str "John")])
    as (st' & Hrun & Hv & _ & _ & _ & _ & Hst); try reflexivity.
  - repeat constructor.
  - exists st'. split; [exact Hrun |]. split; [exact Hv | exact Hst].
Defined.

Lemma entries_of_app a b :
  entries_of (a ++ b)
    = match entries_of a, entries_of b with
      | Some x, Some y => Some (x ++ y)
      | _, _ => None
      end.
Proof.
  induction a as [| u a IH]; simpl.
  - now destruct (entries_of b).
  - rewrite IH. destruct (entry_name u) as [n |]; [| reflexivity].
    destruct (entries_of a) as [x |]; [| reflexivity].
    destruct (entries_of b) as [y |]; [| now destruct (valid_child n)].
    now destruct (valid_child n).
Qed.

Lemma entries_of_new_users (clicks : list (nat * Z)) :
  entries_of (map (fun click => new_user (snd click)) clicks)
    = Some (map (fun _ => VStr (str "New User")) clicks).
Proof.
  induction clicks as [| click clicks IH]; [reflexivity |].
  cbn [map entries_of]. rewrite IH. reflexivity.
Qed.

(** X10. The records added by "Add User" clicks come onto the page with
    the next click on the counter: that click renders from the array as
    it then is, so a page that showed the array's entries now shows
    them followed by one "New User" per earlier click, under a counter
    one higher. *)
Theorem counter_click_shows_the_added_users
    (clicks : list (nat * Z)) (st : state) l elems c ld entries :
  view st = Rendered c ld entries ->
  users st = Ref l ->
  store st !! l = Some (VArr elems) ->
  entries_of elems = Some entries ->
  Forall (fun click => (fst click < length entries)%nat) clicks ->
  exists st',
    run st (add_user_clicks clicks ++ [ClickCount]) = Some st'
    /\ view st'
       = Rendered (count st + 1) (loading st)
           (entries ++ map (fun _ => VStr (str "New User")) clicks).
Proof.
  intros Hv Hu Hl He Hi.
  destruct (add_user_clicks_run clicks st l elems c ld entries Hv Hu Hl Hi)
    as (st1 & Hrun & Hv1 & Hu1 & Hc1 & Hld1 & _ & Hst1).
  assert (Hrun_app : forall evs evs' a b,
             run a evs = Some b -> run a (evs ++ evs') = run b evs').
  { induction evs as [| ev evs IHe]; intros evs' a b Hr; simpl in *.
    - now injection Hr as <-.
    - destruct (step a ev); [now apply IHe | discriminate]. }
  rewrite (Hrun_app _ _ _ _ Hrun).
  eexists. cbn [run step]. rewrite Hv1, Hv. split; [reflexivity |].
  unfold flush, setCount, begin.
  cbn [cells dirty count users loading store view phase requests orb].
  replace (count st1 + 1 =? count st1) with false by (symmetry; apply Z.eqb_neq; lia).
  cbn [negb]. rewrite Hv1, Hv. cbn [view]. unfold render.
  rewrite Hu1, Hst1, entries_of_app, He, entries_of_new_users, Hc1, Hld1.
  reflexivity.
Qed.

Lemma counter_click_shows_the_added_users_witness :
  exists st',
    run one_user_page (add_user_clicks [(0%nat, 5); (0%nat, 6)] ++ [ClickCount]) = Some st'
    /\ view st'
       = Rendered 1 false [VStr (str "John"); VStr (str "New User"); VStr (str "New User")].
Proof.
  apply (counter_click_shows_the_added_users [(0%nat, 5); (0%nat, 6)]
           one_user_page 1%nat [john] 0 false [VStr (str "John")]);
    try reflexivity.
  repeat constructor.
Defined.

(** *** What the page shows and what the cells hold *)

Lemma render_labels c u ld sigma :
  match render c u ld sigma with
  | Crashed => True
  | Rendered c' ld' _ => c' = c /\ ld' = ld
  end.
Proof.
  unfold render. destruct u as [v | l]; [exact I |].
  destruct (sigma !! l) as [[| | | | | elems |] |]; try exact I.
  now destruct (entries_of elems).
Qed.

Lemma flush_labels b :
  (dirty b = false -> labels_current (cells b)) -> labels_current (flush b).
Proof.
  unfold flush, labels_current. intros H.
  destruct (dirty b); [| now apply H].
  destruct (view (cells b)) eqn:V; [now rewrite V |].
  cbn [view count loading]. apply render_labels.
Qed.

Lemma begin_labels st :
  labels_current st -> dirty (begin st) = false -> labels_current (cells (begin st)).
Proof. auto. Qed.

Lemma setLoading_labels v b :
  (dirty b = false -> labels_current (cells b)) ->
  dirty (setLoading v b) = false -> labels_current (cells (setLoading v b)).
Proof.
  unfold setLoading, labels_current. cbn [dirty cells view count loading].
  intros H Hd. apply orb_false_iff in Hd as [Hd Hv]. specialize (H Hd).
  apply negb_false_iff, Bool.eqb_prop in Hv. now subst v.
Qed.

Lemma setUsers_labels v b :
  (dirty b = false -> labels_current (cells b)) ->
  dirty (setUsers v b) = false -> labels_current (cells (setUsers v b)).
Proof.
  unfold setUsers, labels_current. cbn [dirty cells view count loading].
  intros H Hd. apply orb_false_iff in Hd as [Hd _]. now apply H.
Qed.

Lemma setCount_labels f b :
  (dirty b = false -> labels_current (cells b)) ->
  dirty (setCount f b) = false -> labels_current (cells (setCount f b)).
Proof.
  unfold setCount, labels_current. cbn [dirty cells view count loading].
  intros H Hd. apply orb_false_iff in Hd as [Hd Hv]. specialize (H Hd).
  apply negb_false_iff, Z.eqb_eq in Hv. now rewrite Hv.
Qed.

Lemma step_labels st ev st' :
  labels_current st -> step st ev = Some st' -> labels_current st'.
Proof.
  intros Inv Hstep.
  destruct ev as [| resolved | parsed | | index now]; simpl in Hstep.
  - destruct (phase st); try discriminate.
    destruct (requests st); try discriminate. injection Hstep as <-.
    unfold fetchUsers_start. apply flush_labels. unfold on_cells.
    cbn [dirty cells]. intros Hd.
    pose proof (setLoading_labels true (begin st) (begin_labels st Inv) Hd) as H.
    exact H.
  - destruct (phase st); try discriminate. injection Hstep as <-.
    unfold fetchUsers_fetched. destruct resolved; [exact Inv |].
    apply flush_labels, setLoading_labels. intros _. exact Inv.
  - destruct (phase st); try discriminate. injection Hstep as <-.
    unfold fetchUsers_parsed. destruct parsed as [data |].
    + destruct (allocate data (store st)) as [v sigma].
      apply flush_labels, setLoading_labels, setUsers_labels. intros _. exact Inv.
    + apply flush_labels, setLoading_labels. intros _. exact Inv.
  - destruct (view st) eqn:V; try discriminate. injection Hstep as <-.
    apply flush_labels, setCount_labels. intros _. exact Inv.
  - destruct (view st) as [| ? ? entries] eqn:V; try discriminate.
    destruct (index <? length entries)%nat; try discriminate.
    unfold addUser in Hstep.
    destruct (push (users st) _ (store st)) as [sigma |]; try discriminate.
    injection Hstep as <-.
    apply flush_labels, setUsers_labels. intros _. exact Inv.
Qed.

(** X11. Whatever happens on the page, as long as it is mounted the
    counter's label is the value of [count] and "Loading..." shows
    exactly when [loading] is true: of what the page shows, only the
    user entries can lag behind the state. *)
Theorem labels_never_stale (evs : list event) : forall (st st' : state),
  labels_current st -> run st evs = Some st' ->
  match view st' with
  | Crashed => True
  | Rendered c ld _ => c = count st' /\ ld = loading st'
  end.
Proof.
  induction evs as [| ev evs IH]; intros st st' Inv Hrun; simpl in Hrun.
  - injection Hrun as <-. exact Inv.
  - destruct (step st ev) as [st1 |] eqn:Hstep; [| discriminate].
    apply (IH st1 st'); [| exact Hrun]. now apply (step_labels st ev).
Qed.

Lemma labels_never_stale_witness :
  match view one_user_page with
  | Crashed => True
  | Rendered c ld _ => c = count one_user_page /\ ld = loading one_user_page
  end.
Proof.
  apply (labels_never_stale
           [Mount; FetchSettled true; JsonSettled (Some (VArr [john]))] initial).
  - split; reflexivity.
  - vm_compute. reflexivity.
Defined.

(** *** The body of the response arrives *)

Lemma data_arrives st data c ld entries :
  phase st = AwaitingJson -> loading st = true -> view st = Rendered c ld entries ->
  exists st',
    step st (JsonSettled (Some data)) = Some st'
    /\ view st' = page_of_data (count st) data
    /\ loading st' = false /\ count st' = count st.
Proof.
  intros Hp Hld Hv. eexists. cbn [step]. rewrite Hp. split; [reflexivity |].
  unfold fetchUsers_parsed.
  destruct (allocate data (store st)) as [v sigma] eqn:A.
  unfold flush, setLoading, setUsers, begin, with_phase, with_store.
  cbn [cells dirty count users loading store phase requests view].
  rewrite Hld. cbn [Bool.eqb negb]. rewrite orb_true_r, Hv.
  cbn [view loading count]. split; [| auto].
  unfold allocate in A. unfold render, page_of_data.
  destruct data; injection A as <- <-; try reflexivity.
  - now rewrite lookup_insert_eq.
  - now rewrite lookup_insert_eq.
Qed.

(** The records a service would send: objects whose [name] is text. *)
Lemma entries_of_named elems :
  Forall (fun u => exists props s, u = VObj props /\ get_prop (str "name") props = VStr s)
         elems ->
  entries_of elems = Some (map (fun u => get u (str "name")) elems).
Proof.
  induction 1 as [| u elems (props & s & -> & Hn) _ IH]; [reflexivity |].
  cbn [entries_of entry_name map get]. now rewrite IH, Hn.
Qed.

(** X12. When the body that arrives is an array of records, each an
    object with a text [name], the page lists exactly those names, in
    the order of the array, and the loading indicator is off. *)
Theorem loaded_records_are_listed (st : state) (elems : list value) c ld entries :
  phase st = AwaitingJson -> loading st = true -> view st = Rendered c ld entries ->
  Forall (fun u => exists props s, u = VObj props /\ get_prop (str "name") props = VStr s)
         elems ->
  exists st',
    step st (JsonSettled (Some (VArr elems))) = Some st'
    /\ view st' = Rendered (count st) false (map (fun u => get u (str "name")) elems).
Proof.
  intros Hp Hld Hv Hnamed.
  destruct (data_arrives st (VArr elems) c ld entries Hp Hld Hv) as (st' & Hs & Hv' & _).
  exists st'. split; [exact Hs |].
  rewrite Hv'. unfold page_of_data. now rewrite (entries_of_named elems Hnamed).
Qed.

Lemma loaded_records_are_listed_witness :
  exists st st',
    run initial [Mount; FetchSettled true] = Some st
    /\ step st (JsonSettled (Some (VArr [john; new_user 7]))) = Some st'
    /\ view st' = Rendered 0 false [VStr (str "John"); VStr (str "New User")].
Proof.
  eexists. 
  destruct (loaded_records_are_listed
              (mkState 0 (Ref 0%nat) true {[ 0%nat := VArr [] ]} AwaitingJson
                 [str "/api/users/0"] (Rendered 0 true []))
              [john; new_user 7] 0 true [] eq_refl eq_refl eq_refl)
    as (st' & Hs & Hv).
  - repeat constructor; eexists _, _; split; reflexivity.
  - exists st'. split; [vm_compute; reflexivity |]. split; [exact Hs | exact Hv].
Defined.

(** X13. When the body that arrives is anything but an array (an object,
    a string, a number, a boolean, [null]), or an array one of whose
    elements is [null], the render throws and the page is unmounted. *)
Theorem other_bodies_crash_the_page (st : state) (data : value) c ld entries :
  phase st = AwaitingJson -> loading st = true -> view st = Rendered c ld entries ->
  (forall elems, data = VArr elems -> In VNull elems) ->
  exists st',
    step st (JsonSettled (Some data)) = Some st' /\ view st' = Crashed
    /\ loading st' = false.
Proof.
  intros Hp Hld Hv Hdata.
  destruct (data_arrives st data c ld entries Hp Hld Hv) as (st' & Hs & Hv' & Hld' & _).
  exists st'. split; [exact Hs |]. split; [| exact Hld'].
  rewrite Hv'. unfold page_of_data.
  destruct data as [| | | | | elems |]; try reflexivity.
  specialize (Hdata elems eq_refl).
  assert (He : entries_of elems = None).
  { clear Hs Hv'. induction elems as [| u elems IH]; [destruct Hdata |].
    destruct Hdata as [E | Hin].
    - subst u. reflexivity.
    - cbn [entries_of]. rewrite (IH Hin). now destruct (entry_name u). }
  now rewrite He.
Qed.

Lemma other_bodies_crash_the_page_witness :
  exists st',
    step (mkState 0 (Ref 0%nat) true {[ 0%nat := VArr [] ]} AwaitingJson
            [str "/api/users/0"] (Rendered 0 true []))
         (JsonSettled (Some john)) = Some st'
    /\ view st' = Crashed
    /\ loading st' = false.
Proof.
  apply (other_bodies_crash_the_page _ john 0 true []); try reflexivity.
  intros elems H. discriminate H.
Defined.

(** X14. A fetch that fails, at [fetch] or at [response.json()], costs
    the page nothing but the indicator: [users] and the store are as
    they were, and the page is rendered from them with "Loading..." off. *)
Theorem failed_fetch_keeps_the_page (st : state) c ld entries :
  loading st = true -> view st = Rendered c ld entries ->
  (phase st = AwaitingFetch ->
   exists st', step st (FetchSettled false) = Some st'
     /\ users st' = users st /\ store st' = store st
     /\ view st' = render (count st) (users st) false (store st))
  /\ (phase st = AwaitingJson ->
      exists st', step st (JsonSettled None) = Some st'
        /\ users st' = users st /\ store st' = store st
        /\ view st' = render (count st) (users st) false (store st)).
Proof.
  intros Hld Hv.
  assert (H : exists st',
             flush (setLoading false (begin (with_phase Idle st))) = st'
             /\ users st' = users st /\ store st' = store st
             /\ view st' = render (count st) (users st) false (store st)).
  { eexists. split; [reflexivity |].
    unfold flush, setLoading, begin, with_phase.
    cbn [cells dirty count users loading store phase requests view].
    rewrite Hld, Hv. cbn [Bool.eqb negb orb view users store count loading].
    auto. }
  destruct H as (st' & Hf & Hrest).
  split; intros Hp; exists st'; (split; [| exact Hrest]);
    cbn [step]; rewrite Hp; unfold fetchUsers_fetched, fetchUsers_parsed;
    now rewrite Hf.
Qed.

Lemma failed_fetch_keeps_the_page_witness :
  exists st st',
    run initial [Mount] = Some st
    /\ step st (FetchSettled false) = Some st'
    /\ users st' = users st
    /\ view st' = Rendered 0 false [].
Proof.
  eexists.
  destruct (failed_fetch_keeps_the_page
              (mkState 0 (Ref 0%nat) true {[ 0%nat := VArr [] ]} AwaitingFetch
                 [str "/api/users/0"] (Rendered 0 true []))
              0 true [] eq_refl eq_refl) as [Hfetch _].
  destruct (Hfetch eq_refl) as (st' & Hs & Hu & _ & Hv).
  exists st'. split; [vm_compute; reflexivity |].
  split; [exact Hs |]. split; [exact Hu | exact Hv].
Defined.

(** *** What the page sends and counts *)

Lemma step_cells st ev st' :
  step st ev = Some st' ->
  count st' = count st + (if is_counter_click ev then 1 else 0)
  /\ (requests st' = requests st
      \/ (requests st = []
          /\ requests st' = [str "/api/users/" ++ Num.toString (count st)])).
Proof.
  intros Hstep.
  destruct ev as [| resolved | parsed | | index now]; simpl in Hstep.
  - destruct (phase st); try discriminate.
    destruct (requests st) eqn:R; try discriminate. injection Hstep as <-.
    unfold fetchUsers_start.
    destruct (ClientFacts.flush_cells (on_cells (with_phase AwaitingFetch)
      (on_cells (with_request (str "/api/users/" ++ Num.toString (count st)))
         (setLoading true (begin st))))) as (-> & _ & _ & _ & _ & ->).
    simpl. rewrite R. split; [lia | now right].
  - destruct (phase st); try discriminate. injection Hstep as <-.
    unfold fetchUsers_fetched. destruct resolved.
    + simpl. split; [lia | now left].
    + destruct (ClientFacts.flush_cells (setLoading false (begin (with_phase Idle st))))
        as (-> & _ & _ & _ & _ & ->).
      simpl. split; [lia | now left].
  - destruct (phase st); try discriminate. injection Hstep as <-.
    unfold fetchUsers_parsed. destruct parsed as [data |].
    + destruct (allocate data (store st)) as [v sigma].
      destruct (ClientFacts.flush_cells (setLoading false
        (setUsers v (begin (with_phase Idle (with_store sigma st))))))
        as (-> & _ & _ & _ & _ & ->).
      simpl. split; [lia | now left].
    + destruct (ClientFacts.flush_cells (setLoading false (begin (with_phase Idle st))))
        as (-> & _ & _ & _ & _ & ->).
      simpl. split; [lia | now left].
  - destruct (view st); try discriminate. injection Hstep as <-.
    destruct (ClientFacts.flush_cells (setCount (fun count => count + 1) (begin st)))
      as (-> & _ & _ & _ & _ & ->).
    simpl. split; [lia | now left].
  - destruct (view st) as [| ? ? entries]; try discriminate.
    destruct (index <? length entries)%nat; try discriminate.
    unfold addUser in Hstep.
    destruct (push (users st) _ (store st)) as [sigma |]; try discriminate.
    injection Hstep as <-.
    destruct (ClientFacts.flush_cells (setUsers (users st) (begin (with_store sigma st))))
      as (-> & _ & _ & _ & _ & ->).
    simpl. split; [lia | now left].
Qed.

Lemma run_cells evs : forall st st',
  run st evs = Some st' ->
  count st' = count st + Z.of_nat (length (List.filter is_counter_click evs))
  /\ (requests st' = requests st
      \/ (requests st = []
          /\ exists k, requests st' = [str "/api/users/" ++ Num.toString k])).
Proof.
  induction evs as [| ev evs IH]; intros st st' Hrun; simpl in Hrun.
  - injection Hrun as <-. simpl. split; [lia | now left].
  - destruct (step st ev) as [st1 |] eqn:Hstep; [| discriminate].
    destruct (step_cells st ev st1 Hstep) as [Hc Hr].
    destruct (IH st1 st' Hrun) as [Hc' Hr'].
    split.
    + rewrite Hc', Hc. cbn [List.filter].
      destruct (is_counter_click ev); cbn [length]; lia.
    + destruct Hr as [Hr | [Hnil Hr]].
      * rewrite Hr in Hr'. exact Hr'.
      * right. split; [exact Hnil |].
        destruct Hr' as [Hr' | [Hnil' _]].
        -- exists (count st). now rewrite Hr', Hr.
        -- rewrite Hr in Hnil'. discriminate Hnil'.
Qed.

(** X15. In its whole life the page sends at most one request, the user
    lookup of the mount effect: no click on "Add User" or on the counter
    and no settled fetch sends anything, so a user added on the page
    never reaches the service. *)
Theorem page_sends_one_lookup_at_most (evs : list event) (st : state) :
  run initial evs = Some st ->
  requests st = []
  \/ exists k,
       requests st = [str "/api/users/" ++ Num.toString k]
       /\ Wire.route_get (str "/api/users/" ++ Num.toString k)
          = Some (Server.GetUser (Num.toString k)).
Proof.
  intros Hrun. destruct (run_cells evs initial st Hrun) as [_ [Hr | [_ [k Hr]]]].
  - now left.
  - right. exists k. split; [exact Hr | apply WireFacts.route_decimal].
Qed.

Lemma page_sends_one_lookup_at_most_witness :
  requests one_user_page = []
  \/ exists k,
       requests one_user_page = [str "/api/users/" ++ Num.toString k]
       /\ Wire.route_get (str "/api/users/" ++ Num.toString k)
          = Some (Server.GetUser (Num.toString k)).
Proof.
  apply (page_sends_one_lookup_at_most
           [Mount; FetchSettled true; JsonSettled (Some (VArr [john]))]).
  vm_compute. reflexivity.
Defined.

(** X16. The counter counts: at any moment [count] is the number of
    clicks on the counter button so far, and nothing else moves it. *)
Theorem count_is_number_of_counter_clicks (evs : list event) (st : state) :
  run initial evs = Some st ->
  count st = Z.of_nat (length (List.filter is_counter_click evs)).
Proof.
  intros Hrun. destruct (run_cells evs initial st Hrun) as [Hc _].
  rewrite Hc. reflexivity.
Qed.

Lemma count_is_number_of_counter_clicks_witness :
  exists st,
    run initial [Mount; ClickCount; ClickCount; FetchSettled false; ClickCount] = Some st
    /\ count st = 3.
Proof.
  eexists. split; [vm_compute; reflexivity |].
  apply (count_is_number_of_counter_clicks
           [Mount; ClickCount; ClickCount; FetchSettled false; ClickCount]).
  vm_compute. reflexivity.
Defined.

End PageFacts.

(** ** More on the page mounted against the service *)

Module ExchangeFacts.
Import Client.


(** X18. Mounted against this service the page always goes down,
    whatever the array holds: the mount request is a user lookup, both
    of its answers are objects, and [users.map] exists on arrays only. *)
Theorem mount_always_crashes (e : Server.env) (users : list Server.User) :
  exists st,
    System.mount e users = Some st /\ view st = Crashed /\ loading st = false.
Proof.
  assert (Hobj : exists props,
             Server.get_user users (str "0") = Server.res_json (VObj props)).
  { unfold Server.get_user. destruct (Server.find_user users (str "0"));
      eexists; reflexivity. }
  destruct Hobj as [props Hobj].
  set (st1 := mkState 0 (Ref 0%nat) true {[ 0%nat := VArr [] ]} AwaitingFetch
                [str "/api/users/0"] (Rendered 0 true [])).
  assert (Hstep : step initial Mount = Some st1) by (vm_compute; reflexivity).
  assert (Hroute : Wire.route_get (str "/api/users/0") = Some (Server.GetUser (str "0")))
    by (vm_compute; reflexivity).
  unfold System.mount. rewrite Hstep. cbn [requests st1]. rewrite Hroute.
  cbn [Server.handle]. rewrite Hobj. unfold System.deliver, Server.res_json.
  cbn [Server.body Wire.json_roundtrip run].
  destruct (PageFacts.data_arrives
              (mkState 0 (Ref 0%nat) true {[ 0%nat := VArr [] ]} AwaitingJson
                 [str "/api/users/0"] (Rendered 0 true []))
              (Wire.json_clean (VObj props)) 0 true [] eq_refl eq_refl eq_refl)
    as (st' & Hs & Hv & Hld & _).
  exists st'. split; [| split; [exact Hv | exact Hld]].
  change (step st1 (FetchSettled true))
    with (Some (mkState 0 (Ref 0%nat) true {[ 0%nat := VArr [] ]} AwaitingJson
                  [str "/api/users/0"] (Rendered 0 true []))).
  exact Hs.
Qed.

End ExchangeFacts.
